(** * polymarket-apis: canonical value validators and CLOB auth signing

    A shallow embedding of
      - [polymarket_apis/types/common.py]        (hex validators),
      - [polymarket_apis/types/data_types.py]    ([GQLPosition._parse_balance]),
      - [polymarket_apis/utilities/signing/*.py] ([Signer], [ClobAuth],
        [sign_clob_auth_message]),
    together with the properties stated about them.

    Conventions.  A Python [str] is a Rocq [string]: a sequence of code
    points below 256.  For the hex validators nothing is lost: code points
    above 255 are never hex digits, never the letter x and never a line
    feed, and no Unicode case mapping sends them into [0-9a-fA-FxX], so
    they behave like any other non-hex character.  For [int(text)] the
    decimal digits and the white space of the scripts above 255, which
    [int] reads as well, are outside this type: what is stated about a
    text balance is stated about text of code points below 256.
    [bytes] is [list byte],
    [int] is [Z], [float] is the primitive binary64 type.  A raised
    exception is the [Raise] branch of [result]. *)

From Stdlib Require Import String Ascii List ZArith NArith Bool Lia.
From Stdlib.Strings Require Import Byte.
From Stdlib.Strings Require HexString.
From Stdlib Require Import DecimalString DecimalPos.
From Stdlib Require Import PrimFloat SpecFloat FloatOps.
Import ListNotations.

Local Open Scope string_scope.

(* ================================================================== *)
(** ** Python values and exceptions                                     *)
(* ================================================================== *)

Inductive exn : Type :=
| TypeError         (msg : string)
| ValueError        (msg : string)
| OverflowError     (msg : string)
| ZeroDivisionError (msg : string)
| ValueOutOfBounds  (msg : string).   (* eth_abi.exceptions *)

Inductive result (A : Type) : Type :=
| Raise  (e : exn)
| Return (a : A).
Arguments Raise  {A} e.
Arguments Return {A} a.

Definition bind {A B : Type} (m : result A) (k : A -> result B) : result B :=
  match m with
  | Raise e  => Raise e
  | Return a => k a
  end.

Notation "x <- m ;; k" := (bind m (fun x => k))
  (at level 61, m at next level, right associativity).

(** The values the validators can be handed.  [HexBytes] is a subclass
    of [bytes]; both satisfy [isinstance(v, HexBytes | bytes)]. *)
Inductive pyobj : Type :=
| PyStr      (s : string)
| PyBytes    (b : list byte)
| PyHexBytes (b : list byte)
| PyInt      (z : Z)
| PyFloat    (f : float)
| PyNone.

(** [type(v)] as formatted inside an f-string. *)
Definition type_repr (v : pyobj) : string :=
  match v with
  | PyStr _      => "<class 'str'>"
  | PyBytes _    => "<class 'bytes'>"
  | PyHexBytes _ => "<class 'hexbytes.main.HexBytes'>"
  | PyInt _      => "<class 'int'>"
  | PyFloat _    => "<class 'float'>"
  | PyNone       => "<class 'NoneType'>"
  end.

(** The name of [type(v)] as error messages quote it. *)
Definition type_name_of (v : pyobj) : string :=
  match v with
  | PyStr _      => "'str'"
  | PyBytes _    => "'bytes'"
  | PyHexBytes _ => "'HexBytes'"
  | PyInt _      => "'int'"
  | PyFloat _    => "'float'"
  | PyNone       => "'NoneType'"
  end.

(* ================================================================== *)
(** ** Strings                                                          *)
(* ================================================================== *)

Definition LF : ascii := ascii_of_nat 10.

Definition code (c : ascii) : N := N_of_ascii c.

Definition in_range (lo hi c : ascii) : bool :=
  ((code lo <=? code c) && (code c <=? code hi))%N.

(** [s.startswith(p)] *)
Fixpoint startswith (p s : string) : bool :=
  match p, s with
  | EmptyString, _ => true
  | String a p', String b s' => Ascii.eqb a b && startswith p' s'
  | String _ _, EmptyString => false
  end.

(** [s[n:]] *)
Fixpoint slice_from (n : nat) (s : string) : string :=
  match n, s with
  | O, _ => s
  | S n', String _ s' => slice_from n' s'
  | S _, EmptyString => EmptyString
  end.

(** [c in t] for a one-character [c] *)
Fixpoint char_in (c : ascii) (t : string) : bool :=
  match t with
  | EmptyString => false
  | String a t' => Ascii.eqb c a || char_in c t'
  end.

(** [all(p(c) for c in s)] *)
Fixpoint all_chars (p : ascii -> bool) (s : string) : bool :=
  match s with
  | EmptyString => true
  | String a s' => p a && all_chars p s'
  end.

(** [str(n)] for a length *)
Definition str_of_nat (n : nat) : string :=
  NilEmpty.string_of_uint (Nat.to_uint n).

(** The decimal text of an [int]. *)
Definition str_of_int (z : Z) : string :=
  NilZero.string_of_int (Z.to_int z).

(** [sys.get_int_max_str_digits()], at its default. *)
Definition int_max_str_digits : nat := 4300.

(** [str(z)] for an [int]: the decimal text, refused when it has more
    digits than the interpreter's limit. *)
Definition str_int (z : Z) : result string :=
  let s := str_of_int z in
  let digits := (String.length s - (if (z <? 0)%Z then 1 else 0))%nat in
  if Nat.ltb int_max_str_digits digits
  then Raise (ValueError "Exceeds the limit (4300 digits) for integer string conversion")
  else Return s.

(* ------------------------------------------------------------------ *)
(** *** [bytes.hex()]                                                   *)

Definition hex_digit (n : N) : ascii :=
  match n with
  | 0 => "0" | 1 => "1" | 2 => "2" | 3 => "3" | 4 => "4" | 5 => "5"
  | 6 => "6" | 7 => "7" | 8 => "8" | 9 => "9" | 10 => "a" | 11 => "b"
  | 12 => "c" | 13 => "d" | 14 => "e" | _ => "f"
  end%N%char.

Fixpoint bytes_hex (b : list byte) : string :=
  match b with
  | [] => EmptyString
  | x :: b' =>
      String (hex_digit (Byte.to_N x / 16))
        (String (hex_digit (Byte.to_N x mod 16)) (bytes_hex b'))
  end.

(** [HexBytes.hex()].  The signing module calls
    [Account.unsafe_sign_hash], which only exists in eth-account releases
    that depend on hexbytes 1.x, where [HexBytes.hex()] is the inherited
    [bytes.hex()] (no prefix). *)
Definition HexBytes_hex (b : list byte) : string := bytes_hex b.

(* ================================================================== *)
(** ** Regular expressions ([re.compile] / [re.match])                  *)
(* ================================================================== *)

(** The fragment of the [re] syntax the module uses: anchors, literal
    characters, character sets given by ranges, and counted repetition.
    Nothing in it can match in more than one way, so a match attempt is a
    partial function from a position to the position after the match. *)
Inductive regex : Type :=
| Bol                                      (* ^ *)
| Eol                                      (* $ *)
| Lit (c : ascii)
| CharSet (ranges : list (ascii * ascii))  (* [a-fA-F0-9] *)
| Rep (r : regex) (n : nat)                (* r{n} *)
| Cat (r1 r2 : regex).

Record pattern : Type := { pat_re : regex; pat_ignorecase : bool }.

Definition ascii_lower (c : ascii) : ascii :=
  if in_range "A" "Z" c then ascii_of_N (code c + 32) else c.

Definition ascii_upper (c : ascii) : ascii :=
  if in_range "a" "z" c then ascii_of_N (code c - 32) else c.

Definition lit_matches (ic : bool) (l c : ascii) : bool :=
  Ascii.eqb l c || (ic && Ascii.eqb (ascii_lower l) (ascii_lower c)).

Definition in_ranges (rs : list (ascii * ascii)) (c : ascii) : bool :=
  existsb (fun r => in_range (fst r) (snd r) c) rs.

Definition set_matches (ic : bool) (rs : list (ascii * ascii)) (c : ascii) : bool :=
  in_ranges rs c
  || (ic && (in_ranges rs (ascii_lower c) || in_ranges rs (ascii_upper c))).

(** [$] without [re.MULTILINE]: the end of the string, or just before a
    line feed that is the last character of the string. *)
Definition at_eol (rest : string) : bool :=
  match rest with
  | EmptyString => true
  | String c EmptyString => Ascii.eqb c LF
  | _ => false
  end.

Fixpoint run (ic : bool) (r : regex) (pos : nat) (rest : string)
  : option (nat * string) :=
  match r with
  | Bol => if Nat.eqb pos 0 then Some (pos, rest) else None
  | Eol => if at_eol rest then Some (pos, rest) else None
  | Lit l =>
      match rest with
      | String c rest' => if lit_matches ic l c then Some (S pos, rest') else None
      | EmptyString => None
      end
  | CharSet rs =>
      match rest with
      | String c rest' => if set_matches ic rs c then Some (S pos, rest') else None
      | EmptyString => None
      end
  | Rep r' n =>
      (fix rep (k : nat) (pos : nat) (rest : string) : option (nat * string) :=
         match k with
         | O => Some (pos, rest)
         | S k' =>
             match run ic r' pos rest with
             | Some (pos', rest') => rep k' pos' rest'
             | None => None
             end
         end) n pos rest
  | Cat r1 r2 =>
      match run ic r1 pos rest with
      | Some (pos', rest') => run ic r2 pos' rest'
      | None => None
      end
  end.

(** [re.match(p, s)] as a truth value. *)
Definition re_match (p : pattern) (s : string) : bool :=
  match run (pat_ignorecase p) (pat_re p) 0 s with
  | Some _ => true
  | None => false
  end.

Definition HEX_SET : regex :=
  CharSet [("a", "f"); ("A", "F"); ("0", "9")]%char.

(** [r"^0x[a-fA-F0-9]{n}$"] *)
Definition hex_regex (n : nat) : regex :=
  Cat Bol (Cat (Lit "0") (Cat (Lit "x") (Cat (Rep HEX_SET n) Eol))).

(* ================================================================== *)
(** ** types/common.py                                                  *)
(* ================================================================== *)

Definition KECCAK256_REGEX : pattern :=
  {| pat_re := hex_regex 64; pat_ignorecase := false |}.

(** [isinstance(v, HexBytes | bytes)] followed by [v = v.hex()] *)
Definition hex_if_bytes (v : pyobj) : pyobj :=
  match v with
  | PyBytes b    => PyStr (bytes_hex b)
  | PyHexBytes b => PyStr (HexBytes_hex b)
  | _ => v
  end.

Definition validate_keccak256 (v : pyobj) : result string :=
  let v := hex_if_bytes v in
  match v with
  | PyStr v =>
      let v := if negb (startswith "0x" v) then "0x" ++ v else v in
      if negb (re_match KECCAK256_REGEX v)
      then Raise (ValueError ("Invalid Keccak256 hash format: " ++ v))
      else Return v
  | _ => Raise (TypeError ("Expected string or bytes, got " ++ type_repr v))
  end.

Definition CHECKSUM_ADDRESS_REGEX : pattern :=
  {| pat_re := hex_regex 40; pat_ignorecase := true |}.

Definition validate_eth_address (v : pyobj) : result string :=
  let v := hex_if_bytes v in
  match v with
  | PyStr v =>
      let v := if negb (startswith "0x" v) then "0x" ++ v else v in
      if negb (re_match CHECKSUM_ADDRESS_REGEX v)
      then Raise (ValueError ("Invalid Ethereum address format: " ++ v))
      else Return v
  | _ => Raise (TypeError ("Expected string or bytes, got " ++ type_repr v))
  end.

Definition hexbytes_to_str (v : pyobj) : pyobj :=
  match v with
  | PyHexBytes b =>
      let hex_str := HexBytes_hex b in
      PyStr (if startswith "0x" hex_str then hex_str else "0x" ++ hex_str)
  | PyBytes b => PyStr ("0x" ++ bytes_hex b)
  | PyStr s => if negb (startswith "0x" s) then PyStr ("0x" ++ s) else v
  | _ => v
  end.

Definition validate_keccak_or_padded (v : pyobj) : result string :=
  let v := hex_if_bytes v in
  match v with
  | PyStr v =>
      let v_str := if negb (startswith "0x" v) then "0x" ++ v else v in
      if Nat.eqb (String.length v_str) 66
         && all_chars (fun c => char_in c "0123456789abcdefABCDEF")
                      (slice_from 2 v_str)
      then Return v_str
      else Raise (ValueError
                    ("Invalid hash format: expected 66 characters (0x + 64 hex), got "
                     ++ str_of_nat (String.length v_str) ++ ": " ++ v_str))
  | _ => Raise (TypeError ("Expected string or bytes, got " ++ type_repr v))
  end.

(* ================================================================== *)
(** ** Auxiliary definitions used to state facts about the validators   *)
(* ================================================================== *)

Definition is_hex (c : ascii) : bool :=
  in_ranges [("a", "f"); ("A", "F"); ("0", "9")]%char c.

(** Consume [n] hex digits, returning what follows them. *)
Fixpoint hex_run (n : nat) (s : string) : option string :=
  match n with
  | O => Some s
  | S n' =>
      match s with
      | String c s' => if is_hex c then hex_run n' s' else None
      | EmptyString => None
      end
  end.

(** What the prefixing step [if not v.startswith("0x"): v = "0x" + v]
    leaves behind always starts with [0x]. *)
Definition add_0x (v : string) : string :=
  if negb (startswith "0x" v) then "0x" ++ v else v.

Definition NL : string := String LF EmptyString.

(** The shape accepted by [^0x[a-fA-F0-9]{n}$]: [n] hex digits after the
    prefix, optionally followed by one final line feed. *)
Definition hex_shape (n : nat) (s : string) : Prop :=
  exists body tail,
    s = "0x" ++ body ++ tail /\ String.length body = n
    /\ all_chars is_hex body = true /\ (tail = EmptyString \/ tail = NL).


(** Test vectors. *)
Definition addr_mixed : string := "5aAeb6053F3E94C9b9A09f33669435E7Ef1BeAed".
Definition addr_lower : string := "5aaeb6053f3e94c9b9a09f33669435e7ef1beaed".
Definition addr_upper : string := "5AAEB6053F3E94C9B9A09F33669435E7EF1BEAED".

Definition hash64 : string :=
  "c5d2460186f7233c927e7db2dcc703c0e500b653ca82273b7bfad8045d85a470".
Definition hash63 : string :=
  "c5d2460186f7233c927e7db2dcc703c0e500b653ca82273b7bfad8045d85a47".
Definition hash65 : string :=
  "c5d2460186f7233c927e7db2dcc703c0e500b653ca82273b7bfad8045d85a4700".

(* ================================================================== *)
(** ** Bytes, integers and hex text                                     *)
(* ================================================================== *)

Local Open Scope Z_scope.

Definition byte_of_Z (z : Z) : byte :=
  match Byte.of_N (Z.to_N z) with
  | Some b => b
  | None => x00
  end.

Definition Z_of_byte (b : byte) : Z := Z.of_N (Byte.to_N b).

(** [z.to_bytes(len, "big")] for [0 <= z < 256**len] *)
Fixpoint int_to_bytes (len : nat) (z : Z) : list byte :=
  match len with
  | O => []
  | S k => byte_of_Z ((z / 256 ^ Z.of_nat k) mod 256) :: int_to_bytes k z
  end.

(** [int.from_bytes(b, "big")] *)
Definition int_from_bytes (b : list byte) : Z :=
  fold_left (fun acc x => 256 * acc + Z_of_byte x) b 0.

(** [s.encode("utf-8")] for code points below 256 *)
Fixpoint utf8 (s : string) : list byte :=
  match s with
  | EmptyString => []
  | String c s' =>
      let n := Z.of_N (code c) in
      if n <? 128 then byte_of_Z n :: utf8 s'
      else byte_of_Z (192 + n / 64) :: byte_of_Z (128 + n mod 64) :: utf8 s'
  end.

Definition hex_value (c : ascii) : option Z :=
  let n := Z.of_N (code c) in
  if in_range "0" "9" c then Some (n - 48)
  else if in_range "a" "f" c then Some (n - 87)
  else if in_range "A" "F" c then Some (n - 55)
  else None.

(** [binascii.unhexlify] *)
Fixpoint unhexlify (s : string) : option (list byte) :=
  match s with
  | EmptyString => Some []
  | String a (String b s') =>
      match hex_value a, hex_value b, unhexlify s' with
      | Some h, Some l, Some r => Some (byte_of_Z (16 * h + l) :: r)
      | _, _, _ => None
      end
  | String _ EmptyString => None
  end.

Fixpoint hex_digits_value (acc : Z) (s : string) : option Z :=
  match s with
  | EmptyString => Some acc
  | String c s' =>
      match hex_value c with
      | Some d => hex_digits_value (16 * acc + d) s'
      | None => None
      end
  end.

Definition strip_0x (s : string) : string :=
  if startswith "0x" s || startswith "0X" s then slice_from 2 s else s.

(** [int(hexstr, 16)] on plain hex text with an optional [0x] prefix, as
    [eth_utils.to_int(hexstr=...)] calls it. *)
Definition int_base16 (s : string) : result Z :=
  match strip_0x s with
  | EmptyString =>
      Raise (ValueError ("invalid literal for int() with base 16: '" ++ s ++ "'"))
  | body =>
      match hex_digits_value 0 body with
      | Some z => Return z
      | None =>
          Raise (ValueError ("invalid literal for int() with base 16: '" ++ s ++ "'"))
      end
  end.

(** [hexbytes]: hex text to bytes (optional prefix, odd lengths
    left-padded with one zero digit). *)
Definition hexstr_to_bytes (hexstr : string) : result (list byte) :=
  let non_prefixed_hex := strip_0x hexstr in
  let padded_hex :=
    if Nat.odd (String.length hexstr) then String "0" non_prefixed_hex
    else non_prefixed_hex in
  match unhexlify padded_hex with
  | Some b => Return b
  | None => Raise (ValueError "Non-hexadecimal digit found")
  end.

(** [HexBytes(v)]: bytes are taken as they are, text is read as hex, a
    non-negative [int] goes through [hex(v)]. *)
Definition HexBytes_new (v : pyobj) : result (list byte) :=
  match v with
  | PyBytes b | PyHexBytes b => Return b
  | PyStr hexstr => hexstr_to_bytes hexstr
  | PyInt z =>
      if z <? 0 then Raise (ValueError "Cannot convert negative integer to bytes")
      else hexstr_to_bytes (HexString.of_Z z)
  | _ => Raise (TypeError ("Cannot convert " ++ type_repr v ++ " to type bytes"))
  end.

(** [py_order_utils.utils.prepend_zx] (imported): the prefix is added to
    a text of more than two characters that does not start with it. *)
Definition prepend_zx (in_str : string) : string :=
  if Nat.ltb 2 (String.length in_str) && negb (String.eqb (substring 0 2 in_str) "0x")
  then "0x" ++ in_str
  else in_str.

(* ================================================================== *)
(** ** The cryptographic primitives                                     *)
(* ================================================================== *)

(** [eth_account.signers.local.LocalAccount], as far as the signer reads
    it. *)
Record LocalAccount : Type := { address : string }.

(** The three library primitives the signing module calls.  They are
    parameters of everything below. *)
Class Crypto : Type := {
  (** [eth_utils.crypto.keccak]: Keccak-256 of a byte string *)
  keccak : list byte -> list byte;
  (** [eth_account.Account.from_key]: raises on a malformed key *)
  Account_from_key : string -> result LocalAccount;
  (** the recoverable secp256k1 signature r || s || v that
      [eth_account.Account.unsafe_sign_hash] computes for a 32-byte
      digest and a private key *)
  ecdsa_sign : list byte -> string -> list byte
}.

(** What the libraries guarantee about them. *)
Class CryptoLaws (C : Crypto) : Prop := {
  keccak_length : forall m, List.length (keccak m) = 32%nat;
  from_key_address :
    forall k a, Account_from_key k = Return a ->
      exists body, address a = "0x" ++ body
                   /\ String.length body = 40%nat
                   /\ all_chars is_hex body = true;
  ecdsa_sign_length :
    forall d k, List.length d = 32%nat -> List.length (ecdsa_sign d k) = 65%nat
}.

(* ================================================================== *)
(** ** EIP-712 structs ([poly_eip712_structs])                          *)
(* ================================================================== *)

(** Modelled from the spec: [poly_eip712_structs] ([EIP712Struct],
    [Address], [String], [Uint], [make_domain]) is imported by the signing
    module and is not among the source files.  The model follows section 4.3 and
    section 9 of the specification: a struct is an ordered list of named, typed
    members; the type string is built by iterating over them; string
    members are hashed, integers are 32-byte big-endian, addresses are
    encoded as the integer they denote. *)
Inductive EIP712Type : Type :=
| Address
| String_
| Uint (length : nat).

Definition eip712_type_name (t : EIP712Type) : string :=
  match t with
  | Address => "address"
  | String_ => "string"
  | Uint n => "uint" ++ str_of_nat n
  end.

Record EIP712Struct : Type := {
  type_name : string;
  members   : list (string * EIP712Type);   (* in declaration order *)
  values    : list (string * pyobj)         (* by member name *)
}.

(** [d.get(name)] *)
Fixpoint dict_get (name : string) (d : list (string * pyobj)) : pyobj :=
  match d with
  | [] => PyNone
  | (k, v) :: d' => if String.eqb k name then v else dict_get name d'
  end.

(** Modelled from the spec: the struct constructor keeps, for every
    declared member, the keyword argument of that name. *)
Definition new_struct (name : string) (ms : list (string * EIP712Type))
    (kwargs : list (string * pyobj)) : EIP712Struct :=
  {| type_name := name;
     members := ms;
     values := map (fun m => (fst m, dict_get (fst m) kwargs)) ms |}.

Definition join (sep : string) (xs : list string) : string :=
  match xs with
  | [] => EmptyString
  | x :: xs' => fold_left (fun acc y => acc ++ sep ++ y) xs' x
  end.

Section EIP712.
Context {C : Crypto}.

(** Modelled from the spec: encoding of one member value (section 4.3 step 3).
    An unsigned integer outside the range of its type cannot be
    encoded. *)
Definition encode_uint (bits : nat) (z : Z) : result (list byte) :=
  if (0 <=? z) && (z <? 2 ^ Z.of_nat bits)
  then Return (int_to_bytes 32 z)
  else Raise (ValueOutOfBounds ("Value out of bounds for uint" ++ str_of_nat bits)).

Definition encode_member (t : EIP712Type) (v : pyobj) : result (list byte) :=
  match t, v with
  | String_, PyStr s => Return (keccak (utf8 s))
  | String_, PyNone => Return (keccak (utf8 EmptyString))
  | Uint n, PyInt z => encode_uint n z
  | Uint n, PyNone => encode_uint n 0
  | Address, PyStr s => z <- int_base16 s ;; encode_uint 160 z
  | Address, PyBytes b | Address, PyHexBytes b => encode_uint 160 (int_from_bytes b)
  | Address, PyInt z => encode_uint 160 z
  | Address, PyNone => encode_uint 160 0
  | _, _ => Raise (TypeError ("Cannot encode " ++ type_repr v ++ " as "
                              ++ eip712_type_name t))
  end.

(** Modelled from the spec: the type string (section 4.3 step 1), e.g.
    [Mail(address to,string contents)]. *)
Definition encode_type (st : EIP712Struct) : string :=
  type_name st ++ "("
  ++ join "," (map (fun m => eip712_type_name (snd m) ++ " " ++ fst m) (members st))
  ++ ")".

(** Modelled from the spec: the type hash (section 4.3 step 1), Keccak-256 of
    the UTF-8 bytes of the type string. *)
Definition type_hash (st : EIP712Struct) : list byte :=
  keccak (utf8 (encode_type st)).

(** Modelled from the spec: the member encodings, concatenated in
    declaration order. *)
Fixpoint encode_members (ms : list (string * EIP712Type))
    (vals : list (string * pyobj)) : result (list byte) :=
  match ms with
  | [] => Return []
  | (name, typ) :: ms' =>
      e <- encode_member typ (dict_get name vals) ;;
      rest <- encode_members ms' vals ;;
      Return (e ++ rest)%list
  end.

(** Modelled from the spec: the encoding of a struct's own values. *)
Definition encode_value (st : EIP712Struct) : result (list byte) :=
  encode_members (members st) (values st).

(** Modelled from the spec: [hashStruct] (section 4.3 steps 2 and 3). *)
Definition hash_struct (st : EIP712Struct) : result (list byte) :=
  e <- encode_value st ;;
  Return (keccak (type_hash st ++ e)%list).

(** Modelled from the spec: the bytes whose hash is signed (section 4.3 step 4,
    before the final Keccak-256). *)
Definition signable_bytes (st domain : EIP712Struct) : result (list byte) :=
  d <- hash_struct domain ;;
  h <- hash_struct st ;;
  Return (x19 :: x01 :: d ++ h)%list.

(** Modelled from the spec: the domain struct with the three members
    [name], [version], [chainId] (section 3). *)
Definition make_domain (name version : string) (chainId : Z) : EIP712Struct :=
  new_struct "EIP712Domain"
    [("name", String_); ("version", String_); ("chainId", Uint 256)]
    [("name", PyStr name); ("version", PyStr version); ("chainId", PyInt chainId)].

(* ================================================================== *)
(** ** utilities/signing/model.py                                       *)
(* ================================================================== *)

Definition ClobAuth_members : list (string * EIP712Type) :=
  [("address", Address); ("timestamp", String_); ("nonce", Uint 256);
   ("message", String_)].

Definition ClobAuth (kwargs : list (string * pyobj)) : EIP712Struct :=
  new_struct "ClobAuth" ClobAuth_members kwargs.

(* ================================================================== *)
(** ** utilities/signing/signer.py                                      *)
(* ================================================================== *)

Record Signer : Type := {
  private_key : string;
  account     : LocalAccount;
  chain_id    : Z
}.

(** [Signer.__init__]; an absent argument is [None]. *)
Definition Signer_init (private_key : option string) (chain_id : option Z)
  : result Signer :=
  match private_key with
  | None => Raise (ValueError "private_key must not be None")
  | Some private_key =>
      match chain_id with
      | None => Raise (ValueError "chain_id must not be None")
      | Some chain_id =>
          acct <- Account_from_key private_key ;;
          Return {| private_key := private_key;
                    account := acct;
                    chain_id := chain_id |}
      end
  end.

Definition Signer_address (self : Signer) : string := address (account self).

Definition Signer_get_chain_id (self : Signer) : Z := chain_id self.

(** [Account.unsafe_sign_hash(message_hash, private_key).signature]: the
    hash is converted to bytes, must be 32 bytes long, and is signed as
    it is. *)
Definition Account_unsafe_sign_hash (message_hash : pyobj) (key : string)
  : result (list byte) :=
  msg_hash_bytes <- HexBytes_new message_hash ;;
  if negb (Nat.eqb (List.length msg_hash_bytes) 32)
  then Raise (ValueError "The message hash must be exactly 32-bytes")
  else Return (ecdsa_sign msg_hash_bytes key).

Definition Signer_sign (self : Signer) (message_hash : pyobj) : result string :=
  signature <- Account_unsafe_sign_hash message_hash (private_key self) ;;
  Return (HexBytes_hex signature).

(* ================================================================== *)
(** ** utilities/signing/eip712.py                                      *)
(* ================================================================== *)

Definition CLOB_DOMAIN_NAME : string := "ClobAuthDomain".
Definition CLOB_VERSION : string := "1".
Definition MSG_TO_SIGN : string :=
  "This message attests that I control the given wallet".

Definition get_clob_auth_domain (chain_id : Z) : EIP712Struct :=
  make_domain CLOB_DOMAIN_NAME CLOB_VERSION chain_id.

(** The local [auth_struct_hash]: the digest, as prefixed hex text. *)
Definition auth_struct_hash (signer : Signer) (timestamp nonce : Z)
  : result string :=
  timestamp_str <- str_int timestamp ;;
  let clob_auth_msg :=
    ClobAuth [("address", PyStr (Signer_address signer));
              ("timestamp", PyStr timestamp_str);
              ("nonce", PyInt nonce);
              ("message", PyStr MSG_TO_SIGN)] in
  let chain_id := Signer_get_chain_id signer in
  sb <- signable_bytes clob_auth_msg (get_clob_auth_domain chain_id) ;;
  Return (prepend_zx (bytes_hex (keccak sb))).

Definition sign_clob_auth_message (signer : Signer) (timestamp nonce : Z)
  : result string :=
  h <- auth_struct_hash signer timestamp nonce ;;
  sig <- Signer_sign signer (PyStr h) ;;
  Return (prepend_zx sig).

(* ================================================================== *)
(** ** Runs of the signing functions                                    *)
(* ================================================================== *)

(** ECDSA draws a nonce for every signature, so that one digest and one
    key have many valid signatures; which of them a call returns is the
    library's choice.  In a run, the call of the library is therefore a
    relation: [signs d k sig] says that [sig] is a signature the call
    may return for the 32-byte digest [d] and the key [k].  Everything
    else in a run is computed as in the functions above. *)
Section Runs.
Variable signs : list byte -> string -> list byte -> Prop.




End Runs.

(* ================================================================== *)
(** ** The EIP-712 formulas as the specification words them             *)
(* ================================================================== *)

(** Left-padding of a byte string with zero bytes up to [n] bytes. *)
Definition left_pad (n : nat) (b : list byte) : list byte :=
  (repeat x00 (n - List.length b) ++ b)%list.

Definition spec_abiEncode (z : Z) : list byte := int_to_bytes 32 z.

Definition spec_typeHash (signature : string) : list byte :=
  keccak (utf8 signature).

Definition spec_domainSeparator (chainId : Z) : list byte :=
  keccak (spec_typeHash "EIP712Domain(string name,string version,uint256 chainId)"
          ++ keccak (utf8 "ClobAuthDomain")
          ++ keccak (utf8 "1")
          ++ spec_abiEncode chainId)%list.

Definition spec_hashStruct (addr : list byte) (timestampString : string)
    (nonce : Z) : list byte :=
  keccak (spec_typeHash
            "ClobAuth(address address,string timestamp,uint256 nonce,string message)"
          ++ left_pad 32 addr
          ++ keccak (utf8 timestampString)
          ++ spec_abiEncode nonce
          ++ keccak (utf8 "This message attests that I control the given wallet"))%list.

Definition spec_digest (chainId : Z) (addr : list byte)
    (timestampString : string) (nonce : Z) : list byte :=
  keccak (x19 :: x01 :: spec_domainSeparator chainId
                        ++ spec_hashStruct addr timestampString nonce)%list.

End EIP712.

(** An instance of the primitives for running the model on concrete
    inputs: every digest is 32 zero bytes, every key but the empty one
    yields the zero address, every signature is 65 zero bytes. *)
Definition zero_crypto : Crypto :=
  {| keccak := fun _ => repeat x00 32;
     Account_from_key := fun k =>
       if String.eqb k EmptyString
       then Raise (ValueError "The private key must be exactly 32 bytes long")
       else Return {| address := "0x0000000000000000000000000000000000000000" |};
     ecdsa_sign := fun _ _ => repeat x00 65 |}.

Local Close Scope Z_scope.

(** A signer over [zero_crypto], for running the model. *)
Definition zero_signer : Signer :=
  {| private_key := "0x01";
     account := {| address := "0x0000000000000000000000000000000000000000" |};
     chain_id := 137 |}.

(* ================================================================== *)
(** ** [int(text)], [int / int] and [float / int]                       *)
(* ================================================================== *)

Local Open Scope Z_scope.

(** [str.isspace] on one character: the white space of code points
    below 256. *)
Definition is_space (c : ascii) : bool :=
  let n := code c in
  (((9 <=? n) && (n <=? 13)) || ((28 <=? n) && (n <=? 32))
   || (n =? 133) || (n =? 160))%N.

(** The white space that [int(text)] strips.  Before it parses, [int]
    leaves the characters below 127 as they are and replaces every other
    white-space character by a blank; the parser then strips the blank
    and the five characters 9 to 13.  So the separators 28 to 31, which
    [str.isspace] accepts, are not stripped, while 133 and 160 are. *)
Definition is_int_space (c : ascii) : bool :=
  let n := code c in
  (((9 <=? n) && (n <=? 13)) || (n =? 32) || (n =? 133) || (n =? 160))%N.

Fixpoint skip_int_spaces (s : string) : string :=
  match s with
  | String c s' => if is_int_space c then skip_int_spaces s' else s
  | EmptyString => EmptyString
  end.

Definition digit_value (c : ascii) : option Z :=
  if in_range "0" "9" c then Some (Z.of_N (code c) - 48) else None.

(** The scan over digits and single underscores: the value read, the
    number of digits, whether the last character read was an underscore,
    and what follows.  [None] is a doubled underscore. *)
Fixpoint scan_digits (acc : Z) (digits : nat) (prev_underscore : bool)
    (s : string) : option (Z * nat * bool * string) :=
  match s with
  | String c s' =>
      if Ascii.eqb c "_" then
        if prev_underscore then None else scan_digits acc digits true s'
      else
        match digit_value c with
        | Some d => scan_digits (10 * acc + d) (S digits) false s'
        | None => Some (acc, digits, prev_underscore, s)
        end
  | EmptyString => Some (acc, digits, prev_underscore, s)
  end.

(** The digits of [int(s)], after white space and sign: decimal digits
    with single underscores between them, then optional white space.
    The parser counts the digits and refuses more than the interpreter's
    limit before it looks at what follows them.  (The messages do not
    repeat the offending text.) *)
Definition int_digits (negative : bool) (s : string) : result Z :=
  let invalid := ValueError "invalid literal for int() with base 10" in
  if startswith "_" s then Raise invalid
  else
    match scan_digits 0 0 false s with
    | None => Raise invalid
    | Some (v, digits, prev_underscore, rest) =>
        if prev_underscore then Raise invalid
        else if Nat.ltb int_max_str_digits digits
        then Raise (ValueError
                      "Exceeds the limit (4300 digits) for integer string conversion")
        else if Nat.eqb digits 0 then Raise invalid
        else if negb (String.eqb (skip_int_spaces rest) EmptyString)
        then Raise invalid
        else Return (if negative then - v else v)
    end.

(** [int(s)] for a [str] of code points below 256.  (The decimal digits
    and the white space of the scripts above 255, which [int] also
    reads, are outside this type of text.) *)
Definition int_str (s : string) : result Z :=
  match skip_int_spaces s with
  | String c t =>
      if Ascii.eqb c "+" then int_digits false t
      else if Ascii.eqb c "-" then int_digits true t
      else int_digits false (String c t)
  | EmptyString => int_digits false EmptyString
  end.

(** An [int] as an exact (unrounded) binary float. *)
Definition SF_of_int (z : Z) : spec_float :=
  match z with
  | Z0 => S754_zero false
  | Zpos p => S754_finite false p 0
  | Zneg p => S754_finite true p 0
  end.

(** [a / b] on two [int]s: the quotient correctly rounded to binary64
    (round to nearest, ties to even). *)
Definition int_true_divide (a b : Z) : result float :=
  if b =? 0 then Raise (ZeroDivisionError "division by zero")
  else
    match SFdiv prec emax (SF_of_int a) (SF_of_int b) with
    | S754_infinity _ =>
        Raise (OverflowError "integer division result too large for a float")
    | q => Return (SF2Prim q)
    end.

(** [float(z)] for an [int] *)
Definition float_of_int (z : Z) : result float :=
  match binary_normalize prec emax z 0 false with
  | S754_infinity _ => Raise (OverflowError "int too large to convert to float")
  | f => Return (SF2Prim f)
  end.

(** [a / b] on two [float]s *)
Definition float_div (a b : float) : result float :=
  if PrimFloat.eqb b PrimFloat.zero
  then Raise (ZeroDivisionError "float division by zero")
  else Return (PrimFloat.div a b).

(** The operator [/] on the values that can reach it here. *)
Definition truediv (a b : pyobj) : result float :=
  match a, b with
  | PyInt x, PyInt y => int_true_divide x y
  | PyFloat x, PyInt y => fy <- float_of_int y ;; float_div x fy
  | _, _ =>
      Raise (TypeError ("unsupported operand type(s) for /: " ++ type_name_of a
                        ++ " and " ++ type_name_of b))
  end.

(* ================================================================== *)
(** ** types/data_types.py                                              *)
(* ================================================================== *)

(** [GQLPosition._parse_balance], the "before" validator of the field
    [balance: float]. *)
Definition _parse_balance (value : pyobj) : result float :=
  value <- match value with
           | PyStr s => z <- int_str s ;; Return (PyInt z)
           | _ => Return value
           end ;;
  truediv value (PyInt (10 ^ 6)).

(** The digits of a decimal numeral, read from the left onto [acc]. *)
Fixpoint uint_value (acc : Z) (d : Decimal.uint) : Z :=
  match d with
  | Decimal.Nil => acc
  | Decimal.D0 d' => uint_value (10 * acc + 0) d'
  | Decimal.D1 d' => uint_value (10 * acc + 1) d'
  | Decimal.D2 d' => uint_value (10 * acc + 2) d'
  | Decimal.D3 d' => uint_value (10 * acc + 3) d'
  | Decimal.D4 d' => uint_value (10 * acc + 4) d'
  | Decimal.D5 d' => uint_value (10 * acc + 5) d'
  | Decimal.D6 d' => uint_value (10 * acc + 6) d'
  | Decimal.D7 d' => uint_value (10 * acc + 7) d'
  | Decimal.D8 d' => uint_value (10 * acc + 8) d'
  | Decimal.D9 d' => uint_value (10 * acc + 9) d'
  end.

(** The binary number [m * 2^e], with a mantissa [m] of exactly 53 bits,
    lies within half a unit in its last place of the fraction
    [num / den]: [|m * 2^e - num / den| <= 2^e / 2], written without
    fractions. *)
Definition rounds_to (num den : Z) (m : positive) (e : Z) : Prop :=
  2 ^ 52 <= Zpos m < 2 ^ 53
  /\ 2 * Z.abs (Zpos m * 2 ^ Z.max e 0 * den - num * 2 ^ Z.max (- e) 0)
     <= 2 ^ Z.max e 0 * den.

(** What the mantissa, round bit and sticky bit of a shifted record say
    of the fraction [A / B] they were cut from: the mantissa is its
    integer part, the round bit tells whether the rest is at least one
    half, the sticky bit whether the rest is neither zero nor one half. *)
Definition shr_inv (A B : Z) (mrs : shr_record) : Prop :=
  shr_m mrs = A / B
  /\ (shr_r mrs = true <-> B <= 2 * (A mod B))
  /\ (shr_s mrs = true <-> A mod B <> 0 /\ 2 * (A mod B) <> B).

Local Close Scope Z_scope.

(** The characters below code 256 that [int] can accept in a text: the
    white space it strips, the ten digits, the two signs and the
    underscore. *)
Definition int_char (c : ascii) : bool :=
  is_int_space c || in_range "0" "9" c
  || Ascii.eqb c "+" || Ascii.eqb c "-" || Ascii.eqb c "_".

(* ================================================================== *)
(** ** Response records ([dict[str, object]])                           *)
(* ================================================================== *)

(** The objects a decoded GraphQL/REST response is made of. *)
#[warnings="-register-all"]
Inductive json : Type :=
| JNone
| JBool  (b : bool)
| JInt   (z : Z)
| JFloat (f : float)
| JStr   (s : string)
| JList  (items : list json)
| JDict  (entries : list (string * json)).

(** A [dict] with text keys: its items in insertion order.  A Python
    [dict] never holds a key twice ([NoDup (keys d)]). *)
Definition pydict : Type := list (string * json).

Definition keys (d : pydict) : list string := map fst d.

(** [d.get(k)]; [Some] exactly when [k in d], and then [d[k]]. *)
Fixpoint dget (k : string) (d : pydict) : option json :=
  match d with
  | [] => None
  | (k', v) :: d' => if String.eqb k' k then Some v else dget k d'
  end.

(** [d.setdefault(k, v)], as the dict it leaves behind. *)
Definition setdefault (k : string) (v : json) (d : pydict) : pydict :=
  match dget k d with
  | Some _ => d
  | None => (d ++ [(k, v)])%list
  end.

(** [d.pop(k, None)], as the dict it leaves behind. *)
Definition dpop (k : string) (d : pydict) : pydict :=
  filter (fun e => negb (String.eqb (fst e) k)) d.

(* ================================================================== *)
(** ** types/data_types.py: [GQLPosition._flatten]                      *)
(* ================================================================== *)

(** The "before" model validator of [GQLPosition]: the record is updated
    in place and returned. *)
Definition _flatten (values : pydict) : pydict :=
  match dget "asset" values with
  | Some (JDict asset) =>
      let values :=
        match dget "id" asset with
        | Some id => setdefault "token_id" id values
        | None => values
        end in
      let values :=
        match dget "complement" asset with
        | Some complement => setdefault "complementary_token_id" complement values
        | None => values
        end in
      let values :=
        match dget "condition" asset with
        | Some (JDict condition) =>
            match dget "id" condition with
            | Some id => setdefault "condition_id" id values
            | None => values
            end
        | _ => values
        end in
      let values :=
        match dget "outcomeIndex" asset with
        | Some outcomeIndex => setdefault "outcome_index" outcomeIndex values
        | None => values
        end in
      dpop "asset" values
  | _ => values
  end.

(** What the nested [asset] contributes to a top-level key. *)
Definition asset_value (asset : pydict) (k : string) : option json :=
  if String.eqb k "token_id" then dget "id" asset
  else if String.eqb k "complementary_token_id" then dget "complement" asset
  else if String.eqb k "condition_id" then
    match dget "condition" asset with
    | Some (JDict condition) => dget "id" condition
    | _ => None
    end
  else if String.eqb k "outcome_index" then dget "outcomeIndex" asset
  else None.

(** [if o is present: d.setdefault(k, o)] *)
Definition opt_setdefault (k : string) (o : option json) (d : pydict) : pydict :=
  match o with
  | Some v => setdefault k v d
  | None => d
  end.

(** A position as the subgraph returns it. *)
Definition sample_asset : pydict :=
  [("id", JStr "123");
   ("complement", JStr "456");
   ("condition", JDict [("id", JStr ("0x" ++ hash64))]);
   ("outcomeIndex", JInt 1)].

Definition sample_position : pydict :=
  [("user", JStr "0x5aaeb6053f3e94c9b9a09f33669435e7ef1beaed");
   ("balance", JStr "2500000");
   ("asset", JDict sample_asset)].
(* ================================================================== *)
(** ** Facts about the regular expressions                              *)
(* ================================================================== *)

Ltac each_ascii c := destruct c as [[] [] [] [] [] [] [] []].

Lemma set_matches_hex (ic : bool) (c : ascii) :
  set_matches ic [("a", "f"); ("A", "F"); ("0", "9")]%char c = is_hex c.
Proof. destruct ic; each_ascii c; reflexivity. Qed.

Lemma char_in_hex_alphabet (c : ascii) :
  char_in c "0123456789abcdefABCDEF" = is_hex c.
Proof. each_ascii c; reflexivity. Qed.

Lemma x_not_hex : is_hex "x" = false.
Proof. reflexivity. Qed.

Lemma LF_not_hex : is_hex LF = false.
Proof. reflexivity. Qed.

Lemma run_rep_S (ic : bool) (r : regex) (n pos : nat) (s : string) :
  run ic (Rep r (S n)) pos s
  = match run ic r pos s with
    | Some (pos', rest') => run ic (Rep r n) pos' rest'
    | None => None
    end.
Proof. reflexivity. Qed.

Lemma run_hex_set (ic : bool) (pos : nat) (c : ascii) (s : string) :
  run ic HEX_SET pos (String c s)
  = if is_hex c then Some (S pos, s) else None.
Proof. unfold HEX_SET. cbn [run]. now rewrite set_matches_hex. Qed.

Lemma run_rep_hex (ic : bool) (n pos : nat) (s : string) :
  run ic (Rep HEX_SET n) pos s
  = match hex_run n s with
    | Some rest => Some (pos + n, rest)
    | None => None
    end.
Proof.
  revert pos s. induction n as [|n IH]; intros pos s.
  - simpl. now rewrite Nat.add_0_r.
  - rewrite run_rep_S. destruct s as [|c s]; [reflexivity|].
    rewrite run_hex_set. cbn [hex_run]. destruct (is_hex c); [|reflexivity].
    rewrite IH. now rewrite Nat.add_succ_r.
Qed.

Lemma run_cat (ic : bool) (r1 r2 : regex) (pos : nat) (s : string) :
  run ic (Cat r1 r2) pos s
  = match run ic r1 pos s with
    | Some (pos', rest') => run ic r2 pos' rest'
    | None => None
    end.
Proof. reflexivity. Qed.

Lemma run_prefix_0x (ic : bool) (r : regex) (t : string) :
  run ic (Cat Bol (Cat (Lit "0") (Cat (Lit "x") r))) 0 ("0x" ++ t) = run ic r 2 t.
Proof. destruct ic; reflexivity. Qed.

(** On a string that starts with the two characters [0x], matching
    [^0x[a-fA-F0-9]{n}$] (with or without [re.IGNORECASE]) is: [n] hex
    digits, then the end of the string or one final line feed. *)
Lemma re_match_0x (ic : bool) (n : nat) (t : string) :
  re_match {| pat_re := hex_regex n; pat_ignorecase := ic |} ("0x" ++ t)
  = match hex_run n t with
    | Some rest => at_eol rest
    | None => false
    end.
Proof.
  unfold re_match, hex_regex. cbn [pat_re pat_ignorecase].
  rewrite run_prefix_0x, run_cat, run_rep_hex.
  destruct (hex_run n t) as [rest|]; [|reflexivity].
  cbn [run]. now destruct (at_eol rest).
Qed.

Lemma hex_run_app (body rest : string) :
  all_chars is_hex body = true ->
  hex_run (String.length body) (body ++ rest) = Some rest.
Proof.
  induction body as [|c body IH]; intros H.
  - reflexivity.
  - cbn [all_chars] in H. apply andb_true_iff in H as [Hc Hb].
    cbn [String.length hex_run append]. rewrite Hc. auto.
Qed.

Lemma hex_run_inv (n : nat) (s rest : string) :
  hex_run n s = Some rest ->
  exists body, s = body ++ rest /\ String.length body = n
               /\ all_chars is_hex body = true.
Proof.
  revert s. induction n as [|n IH]; intros s H.
  - exists EmptyString. cbn [hex_run] in H. inversion H. auto.
  - destruct s as [|c s]; [discriminate|]. cbn [hex_run] in H.
    destruct (is_hex c) eqn:Hc; [|discriminate].
    destruct (IH _ H) as (body & -> & Hl & Hh).
    exists (String c body). cbn [append String.length all_chars].
    rewrite Hc, Hh, Hl. auto.
Qed.

Lemma startswith_0x (s : string) :
  startswith "0x" s = true -> exists t, s = "0x" ++ t.
Proof.
  destruct s as [|a [|b t]]; cbn [startswith]; try discriminate.
  - now rewrite andb_false_r.
  - rewrite andb_true_r. intros H. apply andb_true_iff in H as [Ha Hb].
    apply Ascii.eqb_eq in Ha, Hb. subst. now exists t.
Qed.

Lemma add_0x_startswith (v : string) : startswith "0x" (add_0x v) = true.
Proof.
  unfold add_0x. destruct (startswith "0x" v) eqn:E; [exact E | reflexivity].
Qed.

Lemma add_0x_idem (v : string) : add_0x (add_0x v) = add_0x v.
Proof. unfold add_0x at 1. now rewrite add_0x_startswith. Qed.

Lemma hex_body_not_prefixed (body : string) :
  all_chars is_hex body = true -> 2 <= String.length body ->
  startswith "0x" body = false.
Proof.
  destruct body as [|a [|b t]]; cbn [String.length]; try lia. intros H _.
  cbn [startswith all_chars] in *.
  destruct (Ascii.eqb_spec "x" b) as [<-|]; [|now rewrite andb_false_r].
  rewrite x_not_hex in H. cbn [andb] in H. now rewrite andb_false_r in H.
Qed.

Lemma is_hex_digit (n : N) : is_hex (hex_digit n) = true.
Proof.
  destruct n as [|p]; [reflexivity|].
  do 4 (try (destruct p as [p|p|])); reflexivity.
Qed.

Lemma bytes_hex_all_hex (b : list byte) : all_chars is_hex (bytes_hex b) = true.
Proof.
  induction b as [|x b IH]; [reflexivity|].
  cbn [bytes_hex all_chars]. now rewrite !is_hex_digit, IH.
Qed.

Lemma bytes_hex_length (b : list byte) :
  String.length (bytes_hex b) = 2 * List.length b.
Proof. induction b as [|x b IH]; cbn [bytes_hex String.length List.length]; lia. Qed.

(* ================================================================== *)
(** ** Facts about the validators                                       *)
(* ================================================================== *)

Lemma at_eol_iff (rest : string) :
  at_eol rest = true <-> rest = EmptyString \/ rest = NL.
Proof.
  unfold NL. destruct rest as [|c [|d rest]]; cbn [at_eol]; split; intros H; auto.
  - right. apply Ascii.eqb_eq in H. now subst.
  - destruct H as [H|H]; [discriminate|]. inversion H. apply Ascii.eqb_refl.
  - discriminate.
  - destruct H as [H|H]; discriminate.
Qed.

Lemma re_match_shape (ic : bool) (n : nat) (s : string) :
  startswith "0x" s = true ->
  (re_match {| pat_re := hex_regex n; pat_ignorecase := ic |} s = true
   <-> hex_shape n s).
Proof.
  intros Hp. destruct (startswith_0x _ Hp) as [t ->]. rewrite re_match_0x.
  split.
  - destruct (hex_run n t) as [rest|] eqn:E; [|discriminate]. intros Heol.
    destruct (hex_run_inv _ _ _ E) as (body & -> & Hl & Hh).
    exists body, rest. repeat split; auto. now apply at_eol_iff.
  - intros (body & tail & Heq & Hl & Hh & Ht).
    assert (t = body ++ tail) as -> by (cbn in Heq; now inversion Heq).
    rewrite <- Hl, hex_run_app by exact Hh. now apply at_eol_iff.
Qed.

Lemma validate_keccak256_str (s : string) :
  validate_keccak256 (PyStr s)
  = if re_match KECCAK256_REGEX (add_0x s) then Return (add_0x s)
    else Raise (ValueError ("Invalid Keccak256 hash format: " ++ add_0x s)).
Proof.
  unfold validate_keccak256. cbn [hex_if_bytes]. fold (add_0x s).
  now destruct (re_match KECCAK256_REGEX (add_0x s)).
Qed.

Lemma validate_eth_address_str (s : string) :
  validate_eth_address (PyStr s)
  = if re_match CHECKSUM_ADDRESS_REGEX (add_0x s) then Return (add_0x s)
    else Raise (ValueError ("Invalid Ethereum address format: " ++ add_0x s)).
Proof.
  unfold validate_eth_address. cbn [hex_if_bytes]. fold (add_0x s).
  now destruct (re_match CHECKSUM_ADDRESS_REGEX (add_0x s)).
Qed.

(** Every successful call went through the string branch. *)
Lemma validate_keccak256_text (v : pyobj) (r : string) :
  validate_keccak256 v = Return r ->
  exists s, hex_if_bytes v = PyStr s /\ validate_keccak256 (PyStr s) = Return r.
Proof.
  destruct v as [s|b|b|z|f|]; try discriminate; intros H.
  - now exists s.
  - now exists (bytes_hex b).
  - now exists (HexBytes_hex b).
Qed.

Lemma validate_eth_address_text (v : pyobj) (r : string) :
  validate_eth_address v = Return r ->
  exists s, hex_if_bytes v = PyStr s /\ validate_eth_address (PyStr s) = Return r.
Proof.
  destruct v as [s|b|b|z|f|]; try discriminate; intros H.
  - now exists s.
  - now exists (bytes_hex b).
  - now exists (HexBytes_hex b).
Qed.

(** Exactly what [validate_keccak256] lets through. *)
Lemma validate_keccak256_accepts (s r : string) :
  validate_keccak256 (PyStr s) = Return r
  <-> r = add_0x s /\ hex_shape 64 (add_0x s).
Proof.
  rewrite validate_keccak256_str.
  pose proof (re_match_shape false 64 _ (add_0x_startswith s)) as Hm.
  fold KECCAK256_REGEX in Hm.
  destruct (re_match KECCAK256_REGEX (add_0x s)); split.
  - intros H. inversion H. split; [reflexivity | now apply Hm].
  - now intros [-> _].
  - discriminate.
  - intros [_ H]. apply Hm in H. discriminate.
Qed.

Lemma validate_eth_address_accepts (s r : string) :
  validate_eth_address (PyStr s) = Return r
  <-> r = add_0x s /\ hex_shape 40 (add_0x s).
Proof.
  rewrite validate_eth_address_str.
  pose proof (re_match_shape true 40 _ (add_0x_startswith s)) as Hm.
  fold CHECKSUM_ADDRESS_REGEX in Hm.
  destruct (re_match CHECKSUM_ADDRESS_REGEX (add_0x s)); split.
  - intros H. inversion H. split; [reflexivity | now apply Hm].
  - now intros [-> _].
  - discriminate.
  - intros [_ H]. apply Hm in H. discriminate.
Qed.

Lemma validate_keccak_or_padded_str (s : string) :
  validate_keccak_or_padded (PyStr s)
  = if Nat.eqb (String.length (add_0x s)) 66
       && all_chars is_hex (slice_from 2 (add_0x s))
    then Return (add_0x s)
    else Raise (ValueError
                  ("Invalid hash format: expected 66 characters (0x + 64 hex), got "
                   ++ str_of_nat (String.length (add_0x s)) ++ ": " ++ add_0x s)).
Proof.
  unfold validate_keccak_or_padded. cbn [hex_if_bytes]. fold (add_0x s).
  replace (all_chars (fun c => char_in c "0123456789abcdefABCDEF")
             (slice_from 2 (add_0x s)))
    with (all_chars is_hex (slice_from 2 (add_0x s))); [reflexivity|].
  induction (slice_from 2 (add_0x s)) as [|c t IH]; [reflexivity|].
  cbn [all_chars]. now rewrite IH, char_in_hex_alphabet.
Qed.

Lemma validate_keccak_or_padded_text (v : pyobj) (r : string) :
  validate_keccak_or_padded v = Return r ->
  exists s, hex_if_bytes v = PyStr s /\ validate_keccak_or_padded (PyStr s) = Return r.
Proof.
  destruct v as [s|b|b|z|f|]; try discriminate; intros H.
  - now exists s.
  - now exists (bytes_hex b).
  - now exists (HexBytes_hex b).
Qed.

Lemma length_append (a b : string) :
  String.length (a ++ b) = String.length a + String.length b.
Proof. induction a as [|c a IH]; cbn [append String.length]; lia. Qed.

Lemma append_empty_r (a : string) : a ++ EmptyString = a.
Proof. induction a as [|c a IH]; cbn [append]; congruence. Qed.

(** Exactly what [validate_keccak_or_padded] lets through: no final line
    feed here. *)
Lemma validate_keccak_or_padded_accepts (s r : string) :
  validate_keccak_or_padded (PyStr s) = Return r
  <-> r = add_0x s
      /\ exists body, add_0x s = "0x" ++ body /\ String.length body = 64
                      /\ all_chars is_hex body = true.
Proof.
  rewrite validate_keccak_or_padded_str.
  destruct (startswith_0x _ (add_0x_startswith s)) as [t Ht]. rewrite Ht.
  change (slice_from 2 ("0x" ++ t)) with t.
  change (String.length ("0x" ++ t)) with (S (S (String.length t))).
  destruct (Nat.eqb_spec (S (S (String.length t))) 66) as [Hl|Hl];
    destruct (all_chars is_hex t) eqn:Hh; cbn [andb]; split;
    try discriminate.
  - intros H. inversion H. split; [reflexivity|]. exists t. repeat split; auto. lia.
  - now intros [-> _].
  - intros [_ (body & Hb & _ & Hhb)]. inversion Hb. congruence.
  - intros [_ (body & Hb & Hlb & _)]. inversion Hb. subst. lia.
  - intros [_ (body & Hb & Hlb & _)]. inversion Hb. subst. lia.
Qed.

(** Whatever the relaxed validator accepts, the strict one accepts too,
    with the same result. *)
Lemma keccak_or_padded_implies_keccak256 (v : pyobj) (r : string) :
  validate_keccak_or_padded v = Return r -> validate_keccak256 v = Return r.
Proof.
  intros H. destruct (validate_keccak_or_padded_text _ _ H) as (s & Hs & H').
  apply validate_keccak_or_padded_accepts in H' as (-> & body & Hb & Hl & Hh).
  assert (validate_keccak256 (PyStr s) = Return (add_0x s)) as Hk.
  { apply validate_keccak256_accepts. split; [reflexivity|].
    exists body, EmptyString. rewrite append_empty_r. auto. }
  destruct v as [s0|b|b|z|f|]; cbn [hex_if_bytes] in Hs; try discriminate;
    inversion Hs; subst; exact Hk.
Qed.

(** The converse holds except for the final line feed that [$] lets
    through. *)
Lemma keccak256_implies_keccak_or_padded (v : pyobj) (r : string) :
  validate_keccak256 v = Return r ->
  validate_keccak_or_padded v = Return r
  \/ exists body, r = "0x" ++ body ++ NL /\ String.length body = 64
                  /\ all_chars is_hex body = true.
Proof.
  intros H. destruct (validate_keccak256_text _ _ H) as (s & Hs & H').
  apply validate_keccak256_accepts in H' as (-> & body & tail & Hb & Hl & Hh & Ht).
  destruct Ht as [-> | ->].
  - left. rewrite append_empty_r in Hb.
    assert (validate_keccak_or_padded (PyStr s) = Return (add_0x s)) as Hk.
    { apply validate_keccak_or_padded_accepts. split; [reflexivity|].
      now exists body. }
    destruct v as [s0|b|b|z|f|]; cbn [hex_if_bytes] in Hs; try discriminate;
      inversion Hs; subst; exact Hk.
  - right. now exists body.
Qed.

(* ------------------------------------------------------------------ *)
(** *** Address validation keeps the casing it is given                 *)

(** C1, as the code has it: for every valid address input (a string of
    exactly 40 hex digits in any casing, with or without the [0x] prefix,
    or 20 raw bytes), [validate_eth_address] returns the [0x]-prefixed
    string whose hex body is the input's own hex body, casing unchanged;
    raw bytes come out in lowercase.  No checksum casing is applied. *)
Theorem validate_eth_address_keeps_case :
  (forall body : string,
      String.length body = 40 -> all_chars is_hex body = true ->
      validate_eth_address (PyStr body) = Return ("0x" ++ body)
      /\ validate_eth_address (PyStr ("0x" ++ body)) = Return ("0x" ++ body))
  /\ (forall b : list byte,
      List.length b = 20 ->
      validate_eth_address (PyBytes b) = Return ("0x" ++ bytes_hex b)
      /\ validate_eth_address (PyHexBytes b) = Return ("0x" ++ bytes_hex b)).
Proof.
  assert (forall body, String.length body = 40 -> all_chars is_hex body = true ->
            validate_eth_address (PyStr body) = Return ("0x" ++ body)) as Hbare.
  { intros body Hl Hh. apply validate_eth_address_accepts.
    assert (add_0x body = "0x" ++ body) as ->.
    { unfold add_0x. rewrite hex_body_not_prefixed by (auto; lia). reflexivity. }
    split; [reflexivity|]. exists body, EmptyString.
    rewrite append_empty_r. auto. }
  split.
  - intros body Hl Hh. split; [now apply Hbare|].
    apply validate_eth_address_accepts.
    change (add_0x ("0x" ++ body)) with ("0x" ++ body).
    split; [reflexivity|]. exists body, EmptyString.
    rewrite append_empty_r. auto.
  - intros b Hl.
    assert (validate_eth_address (PyStr (bytes_hex b)) = Return ("0x" ++ bytes_hex b)) as H.
    { apply Hbare; [rewrite bytes_hex_length; lia | apply bytes_hex_all_hex]. }
    split; exact H.
Qed.

Lemma validate_eth_address_keeps_case_witness :
  (validate_eth_address (PyStr addr_upper) = Return ("0x" ++ addr_upper)
   /\ validate_eth_address (PyStr ("0x" ++ addr_upper)) = Return ("0x" ++ addr_upper))
  /\ (validate_eth_address (PyBytes (repeat xff 20))
      = Return ("0x" ++ bytes_hex (repeat xff 20))
      /\ validate_eth_address (PyHexBytes (repeat xff 20))
         = Return ("0x" ++ bytes_hex (repeat xff 20))).
Proof.
  split.
  - apply (proj1 validate_eth_address_keeps_case addr_upper); reflexivity.
  - apply (proj2 validate_eth_address_keeps_case (repeat xff 20)); reflexivity.
Defined.

(** C1, as stated, fails: the all-lowercase hex body of the test vector
    is returned in lowercase, not in checksum casing. *)
Lemma validate_eth_address_no_checksum :
  validate_eth_address (PyStr addr_lower) = Return ("0x" ++ addr_lower)
  /\ validate_eth_address (PyStr addr_lower) <> Return ("0x" ++ addr_mixed).
Proof. split; [reflexivity | discriminate]. Qed.

(* ------------------------------------------------------------------ *)
(** *** Hash validation and the final line feed                         *)

(** The 63- and 65-digit rejections and the 64-digit acceptance that the
    hash validator is meant to have do hold. *)
Lemma validate_keccak256_lengths :
  validate_keccak256 (PyStr hash63)
  = Raise (ValueError ("Invalid Keccak256 hash format: 0x" ++ hash63))
  /\ validate_keccak256 (PyStr hash65)
     = Raise (ValueError ("Invalid Keccak256 hash format: 0x" ++ hash65))
  /\ validate_keccak256 (PyStr hash64) = Return ("0x" ++ hash64)
  /\ validate_keccak256 (PyStr ("0x" ++ hash64)) = Return ("0x" ++ hash64).
Proof. repeat split; reflexivity. Qed.

(** C6 at its failing input: a hex body of 64 digits followed by a line
    feed is 65 characters long and is not 64 hex characters, yet
    [validate_keccak256] accepts it and returns it with the line feed. *)
Theorem validate_keccak256_accepts_trailing_newline :
  String.length (hash64 ++ NL) = 65
  /\ all_chars is_hex (hash64 ++ NL) = false
  /\ validate_keccak256 (PyStr ("0x" ++ hash64 ++ NL)) = Return ("0x" ++ hash64 ++ NL).
Proof. repeat split; reflexivity. Qed.

(** C8 at its failing input: the same string is accepted by
    [validate_keccak256] and rejected by [validate_keccak_or_padded]. *)
Theorem keccak_validators_disagree :
  validate_keccak256 (PyStr ("0x" ++ hash64 ++ NL)) = Return ("0x" ++ hash64 ++ NL)
  /\ validate_keccak_or_padded (PyStr ("0x" ++ hash64 ++ NL))
     = Raise (ValueError
                ("Invalid hash format: expected 66 characters (0x + 64 hex), got 67: 0x"
                 ++ hash64 ++ NL)).
Proof. split; reflexivity. Qed.

(* ------------------------------------------------------------------ *)
(** *** Idempotence                                                     *)

(** C7: re-validating a validator's own output returns the same value,
    for [validate_eth_address] and for [validate_keccak256], whatever the
    accepted input was (text or bytes). *)
Theorem validators_idempotent :
  (forall (v : pyobj) (a : string),
      validate_eth_address v = Return a ->
      validate_eth_address (PyStr a) = Return a)
  /\ (forall (v : pyobj) (h : string),
      validate_keccak256 v = Return h ->
      validate_keccak256 (PyStr h) = Return h).
Proof.
  split.
  - intros v a H. destruct (validate_eth_address_text _ _ H) as (s & _ & H').
    apply validate_eth_address_accepts in H' as [-> Hs].
    apply validate_eth_address_accepts. now rewrite add_0x_idem.
  - intros v h H. destruct (validate_keccak256_text _ _ H) as (s & _ & H').
    apply validate_keccak256_accepts in H' as [-> Hs].
    apply validate_keccak256_accepts. now rewrite add_0x_idem.
Qed.

Lemma validators_idempotent_witness :
  validate_eth_address (PyStr ("0x" ++ addr_lower)) = Return ("0x" ++ addr_lower)
  /\ validate_keccak256 (PyStr ("0x" ++ hash64)) = Return ("0x" ++ hash64).
Proof.
  split.
  - apply (proj1 validators_idempotent (PyStr addr_lower)). reflexivity.
  - apply (proj2 validators_idempotent (PyStr hash64)). reflexivity.
Defined.

(* ================================================================== *)
(** ** Facts about bytes, integers and hex text                         *)
(* ================================================================== *)

Local Open Scope Z_scope.

Lemma Z_of_byte_range (b : byte) : 0 <= Z_of_byte b < 256.
Proof. unfold Z_of_byte. pose proof (Byte.to_N_bounded b). lia. Qed.

Lemma byte_of_Z_of_byte (b : byte) : byte_of_Z (Z_of_byte b) = b.
Proof. unfold byte_of_Z, Z_of_byte. now rewrite N2Z.id, Byte.of_to_N. Qed.

Lemma Z_of_byte_of_Z (z : Z) : 0 <= z < 256 -> Z_of_byte (byte_of_Z z) = z.
Proof.
  intros Hz. unfold byte_of_Z, Z_of_byte.
  destruct (Byte.of_N (Z.to_N z)) as [b|] eqn:E.
  - apply Byte.to_of_N in E. rewrite E. lia.
  - apply Byte.of_N_None_iff in E. lia.
Qed.

Lemma string_ind2 (P : string -> Prop) :
  P EmptyString ->
  (forall a, P (String a EmptyString)) ->
  (forall a b s, P s -> P (String a (String b s))) ->
  forall s, P s.
Proof.
  intros H0 H1 H2. fix IH 1. intros [|a [|b s]].
  - exact H0.
  - apply H1.
  - apply H2, IH.
Qed.

Lemma hex_value_is_hex (c : ascii) :
  is_hex c = true -> exists d, hex_value c = Some d /\ 0 <= d < 16.
Proof.
  each_ascii c; intros H; try discriminate H;
    (eexists; split; [reflexivity | cbv; split; congruence]).
Qed.

Lemma hex_value_range (c : ascii) (d : Z) : hex_value c = Some d -> 0 <= d < 16.
Proof.
  each_ascii c; intros H; try discriminate H;
    (injection H as <-; cbv; split; congruence).
Qed.

(** One byte printed by [bytes.hex()] reads back as that byte. *)
Lemma unhex_byte (x : byte) :
  match hex_value (hex_digit (Byte.to_N x / 16)),
        hex_value (hex_digit (Byte.to_N x mod 16)) with
  | Some h, Some l => byte_of_Z (16 * h + l) = x
  | _, _ => False
  end.
Proof. destruct x; reflexivity. Qed.

Lemma unhexlify_cons (a b : ascii) (s : string) :
  unhexlify (String a (String b s))
  = match hex_value a, hex_value b, unhexlify s with
    | Some h, Some l, Some r => Some (byte_of_Z (16 * h + l) :: r)
    | _, _, _ => None
    end.
Proof. reflexivity. Qed.

Lemma unhexlify_bytes_hex (b : list byte) : unhexlify (bytes_hex b) = Some b.
Proof.
  induction b as [|x b IH]; [reflexivity|].
  cbn [bytes_hex]. rewrite unhexlify_cons. pose proof (unhex_byte x) as Hx.
  destruct (hex_value (hex_digit (Byte.to_N x / 16))) as [h|]; [|contradiction].
  destruct (hex_value (hex_digit (Byte.to_N x mod 16))) as [l|]; [|contradiction].
  now rewrite IH, Hx.
Qed.


Lemma unhexlify_length (s : string) (bs : list byte) :
  unhexlify s = Some bs -> String.length s = (2 * List.length bs)%nat.
Proof.
  revert bs. induction s as [| a | a b s IH] using string_ind2; intros bs H.
  - inversion H. reflexivity.
  - discriminate.
  - rewrite unhexlify_cons in H.
    destruct (hex_value a), (hex_value b), (unhexlify s) as [r|]; try discriminate.
    inversion H. cbn [String.length List.length]. rewrite (IH r eq_refl). lia.
Qed.

(** Hex text of even length always decodes. *)
Lemma unhexlify_hex (n : nat) (s : string) :
  String.length s = (2 * n)%nat -> all_chars is_hex s = true ->
  exists bs, unhexlify s = Some bs /\ List.length bs = n.
Proof.
  revert n. induction s as [| a | a b s IH] using string_ind2; intros n Hl Hh.
  - exists []. split; [reflexivity|]. cbn in *. lia.
  - cbn in Hl. lia.
  - cbn [all_chars] in Hh. apply andb_true_iff in Hh as [Ha Hh].
    apply andb_true_iff in Hh as [Hb Hh].
    destruct n as [|n]; [cbn in Hl; lia|].
    destruct (IH n) as (bs & Hbs & Hn); [cbn in Hl; lia | exact Hh |].
    destruct (hex_value_is_hex _ Ha) as (h & Hh' & _).
    destruct (hex_value_is_hex _ Hb) as (l & Hl' & _).
    exists (byte_of_Z (16 * h + l) :: bs).
    rewrite unhexlify_cons. cbn [List.length]. rewrite Hh', Hl', Hbs. auto.
Qed.

Lemma fold_bytes_acc (bs : list byte) (acc : Z) :
  fold_left (fun a x => 256 * a + Z_of_byte x) bs acc
  = acc * 256 ^ Z.of_nat (List.length bs) + int_from_bytes bs.
Proof.
  unfold int_from_bytes. revert acc. induction bs as [|x bs IH]; intros acc.
  - cbn. lia.
  - cbn [fold_left List.length]. rewrite IH, (IH (256 * 0 + Z_of_byte x)).
    rewrite Nat2Z.inj_succ, Z.pow_succ_r by lia. ring.
Qed.

Lemma int_from_bytes_cons (x : byte) (bs : list byte) :
  int_from_bytes (x :: bs)
  = Z_of_byte x * 256 ^ Z.of_nat (List.length bs) + int_from_bytes bs.
Proof.
  unfold int_from_bytes at 1. cbn [fold_left]. rewrite fold_bytes_acc. ring.
Qed.

Lemma int_from_bytes_range (bs : list byte) :
  0 <= int_from_bytes bs < 256 ^ Z.of_nat (List.length bs).
Proof.
  induction bs as [|x bs IH]; [cbn; lia|].
  rewrite int_from_bytes_cons. cbn [List.length].
  rewrite Nat2Z.inj_succ, Z.pow_succ_r by lia.
  pose proof (Z_of_byte_range x). nia.
Qed.

(** Reading hex digits as a number and decoding them as bytes agree. *)
Lemma hex_digits_value_unhexlify (s : string) :
  forall (bs : list byte) (acc : Z),
    unhexlify s = Some bs ->
    hex_digits_value acc s
    = Some (acc * 256 ^ Z.of_nat (List.length bs) + int_from_bytes bs).
Proof.
  induction s as [| a | a b s IH] using string_ind2; intros bs acc H.
  - inversion H. cbn. f_equal. lia.
  - discriminate.
  - rewrite unhexlify_cons in H. cbn [hex_digits_value].
    destruct (hex_value a) as [h|] eqn:Ha; [|discriminate].
    destruct (hex_value b) as [l|] eqn:Hb; [|discriminate].
    destruct (unhexlify s) as [r|] eqn:Hr; [|discriminate].
    assert (bs = byte_of_Z (16 * h + l) :: r) as -> by congruence.
    rewrite (IH r _ eq_refl), int_from_bytes_cons.
    apply hex_value_range in Ha, Hb.
    rewrite Z_of_byte_of_Z by lia. cbn [List.length].
    rewrite Nat2Z.inj_succ, Z.pow_succ_r by lia. f_equal. ring.
Qed.

Lemma int_to_bytes_length (n : nat) (z : Z) : List.length (int_to_bytes n z) = n.
Proof. induction n as [|n IH]; cbn [int_to_bytes List.length]; congruence. Qed.

(** Only the low [8 * k] bits matter to [int_to_bytes k]. *)
Lemma int_to_bytes_low (k n : nat) (z y : Z) :
  (k <= n)%nat -> int_to_bytes k (z + y * 256 ^ Z.of_nat n) = int_to_bytes k z.
Proof.
  induction k as [|k IH]; intros Hk; [reflexivity|].
  cbn [int_to_bytes]. rewrite IH by lia. f_equal. f_equal.
  replace (Z.of_nat n) with (Z.of_nat k + (1 + (Z.of_nat n - Z.of_nat k - 1))) by lia.
  rewrite Z.pow_add_r, Z.pow_add_r by lia.
  replace (y * (256 ^ Z.of_nat k * (256 ^ 1 * 256 ^ (Z.of_nat n - Z.of_nat k - 1))))
    with (y * 256 ^ (Z.of_nat n - Z.of_nat k - 1) * 256 * 256 ^ Z.of_nat k) by ring.
  rewrite Z.div_add by (apply Z.pow_nonzero; lia).
  replace (y * 256 ^ (Z.of_nat n - Z.of_nat k - 1) * 256)
    with (y * 256 ^ (Z.of_nat n - Z.of_nat k - 1) * 256) by ring.
  now rewrite Z.mod_add by lia.
Qed.

Lemma int_to_bytes_from_bytes (bs : list byte) :
  int_to_bytes (List.length bs) (int_from_bytes bs) = bs.
Proof.
  induction bs as [|x bs IH]; [reflexivity|].
  cbn [List.length int_to_bytes]. rewrite int_from_bytes_cons.
  pose proof (int_from_bytes_range bs) as Hr. pose proof (Z_of_byte_range x) as Hx.
  f_equal.
  - rewrite Z.add_comm, Z.div_add by (apply Z.pow_nonzero; lia).
    rewrite Z.div_small by lia. cbn [Z.add].
    rewrite Z.mod_small by lia. apply byte_of_Z_of_byte.
  - rewrite Z.add_comm, int_to_bytes_low by lia. exact IH.
Qed.

Lemma int_to_bytes_pad (k m : nat) (z : Z) :
  0 <= z < 256 ^ Z.of_nat m ->
  int_to_bytes (k + m) z = (repeat x00 k ++ int_to_bytes m z)%list.
Proof.
  intros Hz. induction k as [|k IH]; [reflexivity|].
  cbn [Nat.add int_to_bytes repeat app]. rewrite IH. f_equal.
  rewrite Z.div_small; [reflexivity|].
  split; [lia|]. apply Z.lt_le_trans with (256 ^ Z.of_nat m); [lia|].
  apply Z.pow_le_mono_r; lia.
Qed.

(** A byte string of at most [n] bytes, read as a big-endian integer and
    written back on [n] bytes, is that byte string left-padded with
    zeros. *)
Lemma int_to_bytes_left_pad (n : nat) (bs : list byte) :
  (List.length bs <= n)%nat ->
  int_to_bytes n (int_from_bytes bs) = left_pad n bs.
Proof.
  intros Hn. unfold left_pad.
  replace n with ((n - List.length bs) + List.length bs)%nat at 1 by lia.
  rewrite int_to_bytes_pad by apply int_from_bytes_range.
  now rewrite int_to_bytes_from_bytes.
Qed.

Lemma prepend_zx_hex (s : string) :
  all_chars is_hex s = true -> (2 < String.length s)%nat ->
  prepend_zx s = "0x" ++ s.
Proof.
  intros Hh Hl. unfold prepend_zx.
  destruct s as [|a [|b s]]; cbn [String.length] in Hl; try lia.
  replace (Nat.ltb 2 (String.length (String a (String b s)))) with true
    by (symmetry; apply Nat.ltb_lt; cbn [String.length]; lia).
  cbn [all_chars] in Hh. apply andb_true_iff in Hh as [_ Hh].
  apply andb_true_iff in Hh as [Hb _].
  replace (substring 0 2 (String a (String b s))) with (String a (String b EmptyString))
    by (destruct s; reflexivity).
  cbn [String.eqb].
  destruct (Ascii.eqb_spec b "x") as [->|_].
  - now rewrite x_not_hex in Hb.
  - now destruct (Ascii.eqb a "0").
Qed.

Lemma odd_length_bytes_hex (b : list byte) :
  Nat.odd (String.length (bytes_hex b)) = false.
Proof. rewrite bytes_hex_length, Nat.odd_mul. reflexivity. Qed.

(** [HexBytes("0x" + b.hex()) == b] *)
Lemma HexBytes_new_0x_hex (b : list byte) :
  HexBytes_new (PyStr ("0x" ++ bytes_hex b)) = Return b.
Proof.
  unfold HexBytes_new, hexstr_to_bytes.
  change (strip_0x ("0x" ++ bytes_hex b)) with (bytes_hex b).
  change (Nat.odd (String.length ("0x" ++ bytes_hex b)))
    with (Nat.odd (String.length (bytes_hex b))).
  rewrite odd_length_bytes_hex. now rewrite unhexlify_bytes_hex.
Qed.

Lemma HexBytes_new_0x_body (body : string) (bs : list byte) :
  unhexlify body = Some bs -> HexBytes_new (PyStr ("0x" ++ body)) = Return bs.
Proof.
  intros H. unfold HexBytes_new, hexstr_to_bytes.
  change (strip_0x ("0x" ++ body)) with body.
  change (Nat.odd (String.length ("0x" ++ body)))
    with (Nat.odd (String.length body)).
  replace (Nat.odd (String.length body)) with false
    by (now rewrite (unhexlify_length _ _ H), Nat.odd_mul).
  now rewrite H.
Qed.

Lemma pow_2_160 : 2 ^ Z.of_nat 160 = 256 ^ Z.of_nat 20.
Proof. reflexivity. Qed.

(* ================================================================== *)
(** ** Facts about the signing module                                   *)
(* ================================================================== *)

Section SigningFacts.
Context {C : Crypto}.

Local Arguments int_to_bytes : simpl never.
Local Arguments utf8 : simpl never.
Local Arguments Z.pow : simpl never.

Lemma encode_uint_ok (bits : nat) (z : Z) :
  0 <= z < 2 ^ Z.of_nat bits -> encode_uint bits z = Return (int_to_bytes 32 z).
Proof.
  intros Hz. unfold encode_uint.
  destruct (Z.leb_spec 0 z), (Z.ltb_spec z (2 ^ Z.of_nat bits)); try lia.
  reflexivity.
Qed.

Lemma encode_uint_inv (bits : nat) (z : Z) (e : list byte) :
  encode_uint bits z = Return e ->
  0 <= z < 2 ^ Z.of_nat bits /\ e = int_to_bytes 32 z.
Proof.
  unfold encode_uint.
  destruct (Z.leb_spec 0 z), (Z.ltb_spec z (2 ^ Z.of_nat bits));
    cbn [andb]; intros Heq; try discriminate.
  injection Heq as <-. split; [lia | reflexivity].
Qed.

(** A 20-byte address given as prefixed hex text is encoded as those 20
    bytes left-padded to 32. *)
Lemma encode_address_hex (body : string) (addr : list byte) :
  unhexlify body = Some addr -> List.length addr = 20%nat ->
  encode_member Address (PyStr ("0x" ++ body)) = Return (left_pad 32 addr).
Proof.
  intros Hu Hl. cbn [encode_member]. unfold int_base16.
  change (strip_0x ("0x" ++ body)) with body.
  destruct body as [|c body'] eqn:Eb.
  - cbn in Hu. injection Hu as <-. discriminate Hl.
  - rewrite <- Eb in *. rewrite (hex_digits_value_unhexlify _ _ 0 Hu).
    cbn [bind]. rewrite Z.mul_0_l, Z.add_0_l.
    pose proof (int_from_bytes_range addr) as Hr. rewrite Hl in Hr.
    rewrite encode_uint_ok by (rewrite pow_2_160; exact Hr).
    rewrite int_to_bytes_left_pad by lia. reflexivity.
Qed.

Lemma encode_type_domain (chainId : Z) :
  encode_type (get_clob_auth_domain chainId)
  = "EIP712Domain(string name,string version,uint256 chainId)".
Proof. reflexivity. Qed.

Lemma encode_type_ClobAuth (kwargs : list (string * pyobj)) :
  encode_type (ClobAuth kwargs)
  = "ClobAuth(address address,string timestamp,uint256 nonce,string message)".
Proof. reflexivity. Qed.

(** The domain struct of the module, hashed: the three members in
    declaration order, the chain id last. *)
Lemma hash_struct_domain (chainId : Z) :
  hash_struct (get_clob_auth_domain chainId)
  = (e <- encode_uint 256 chainId ;;
     Return (keccak
               (spec_typeHash "EIP712Domain(string name,string version,uint256 chainId)"
                ++ keccak (utf8 "ClobAuthDomain") ++ keccak (utf8 "1") ++ e)%list)).
Proof.
  unfold hash_struct, type_hash. rewrite encode_type_domain.
  unfold encode_value, get_clob_auth_domain, make_domain, new_struct.
  cbn [members values map fst snd encode_members dict_get].
  change (String.eqb "name" "name") with true.
  change (String.eqb "name" "version") with false.
  change (String.eqb "version" "version") with true.
  change (String.eqb "name" "chainId") with false.
  change (String.eqb "version" "chainId") with false.
  change (String.eqb "chainId" "chainId") with true.
  cbn [encode_member bind].
  destruct (encode_uint 256 chainId) as [err|e]; cbn [bind]; [reflexivity|].
  rewrite app_nil_r. reflexivity.
Qed.


(** The [ClobAuth] struct of the module, hashed: the four members in
    declaration order. *)
Lemma hash_struct_ClobAuth (body : string) (addr : list byte)
    (timestampString : string) (nonce : Z) :
  unhexlify body = Some addr -> List.length addr = 20%nat ->
  hash_struct (ClobAuth [("address", PyStr ("0x" ++ body));
                         ("timestamp", PyStr timestampString);
                         ("nonce", PyInt nonce);
                         ("message", PyStr MSG_TO_SIGN)])
  = (e <- encode_uint 256 nonce ;;
     Return (keccak
               (spec_typeHash
                  "ClobAuth(address address,string timestamp,uint256 nonce,string message)"
                ++ left_pad 32 addr
                ++ keccak (utf8 timestampString)
                ++ e
                ++ keccak (utf8 "This message attests that I control the given wallet"))%list)).
Proof.
  intros Hu Hl. unfold hash_struct, type_hash. rewrite encode_type_ClobAuth.
  unfold encode_value, ClobAuth, ClobAuth_members, new_struct.
  cbn [members values map fst snd encode_members dict_get].
  change (String.eqb "address" "address") with true.
  change (String.eqb "address" "timestamp") with false.
  change (String.eqb "timestamp" "timestamp") with true.
  change (String.eqb "address" "nonce") with false.
  change (String.eqb "timestamp" "nonce") with false.
  change (String.eqb "nonce" "nonce") with true.
  change (String.eqb "address" "message") with false.
  change (String.eqb "timestamp" "message") with false.
  change (String.eqb "nonce" "message") with false.
  change (String.eqb "message" "message") with true.
  cbv iota.
  rewrite (encode_address_hex _ _ Hu Hl).
  cbn [encode_member bind].
  destruct (encode_uint 256 nonce) as [err|e]; cbn [bind]; [reflexivity|].
  rewrite app_nil_r. reflexivity.
Qed.

Lemma Signer_init_inv (k : string) (c : Z) (signer : Signer) :
  Signer_init (Some k) (Some c) = Return signer ->
  private_key signer = k /\ chain_id signer = c
  /\ Account_from_key k = Return (account signer).
Proof.
  unfold Signer_init. destruct (Account_from_key k) as [e|a]; cbn [bind]; intros H.
  - discriminate.
  - injection H as <-. auto.
Qed.



Context {HC : CryptoLaws C}.

(** The address of a constructed signer is 20 bytes of hex text. *)
Lemma Signer_address_bytes (k : string) (c : Z) (signer : Signer) :
  Signer_init (Some k) (Some c) = Return signer ->
  exists body addr,
    Signer_address signer = "0x" ++ body
    /\ unhexlify body = Some addr /\ List.length addr = 20%nat.
Proof.
  intros H. apply Signer_init_inv in H as (_ & _ & Hk).
  destruct (from_key_address _ _ Hk) as (body & Hb & Hl & Hh).
  destruct (unhexlify_hex 20 body Hl Hh) as (addr & Ha & Hn).
  now exists body, addr.
Qed.

Lemma prepend_zx_digest (m : list byte) :
  prepend_zx (bytes_hex (keccak m)) = "0x" ++ bytes_hex (keccak m).
Proof.
  apply prepend_zx_hex; [apply bytes_hex_all_hex|].
  rewrite bytes_hex_length, keccak_length. lia.
Qed.

(** The digest text that is handed to the signer: exactly when the
    timestamp prints and the chain id and the nonce fit [uint256], it is
    the hex text of the digest of the specification. *)
Lemma auth_struct_hash_iff (signer : Signer) (body : string) (addr : list byte)
    (timestamp nonce : Z) (h : string) :
  Signer_address signer = "0x" ++ body ->
  unhexlify body = Some addr -> List.length addr = 20%nat ->
  auth_struct_hash signer timestamp nonce = Return h
  <-> exists timestampString,
        str_int timestamp = Return timestampString
        /\ 0 <= chain_id signer < 2 ^ 256 /\ 0 <= nonce < 2 ^ 256
        /\ h = "0x" ++ bytes_hex (spec_digest (chain_id signer) addr
                                    timestampString nonce).
Proof.
  intros Ha Hu Hl. unfold auth_struct_hash, signable_bytes.
  rewrite Ha. unfold Signer_get_chain_id.
  destruct (str_int timestamp) as [err|tss]; cbn [bind].
  { split; [discriminate | intros (t & Ht & _); discriminate]. }
  rewrite hash_struct_domain, (hash_struct_ClobAuth _ _ _ _ Hu Hl).
  destruct (encode_uint 256 (chain_id signer)) as [err|ec] eqn:Ec; cbn [bind].
  { split; [discriminate|]. intros (t & _ & Hc & _).
    rewrite (encode_uint_ok 256 _ Hc) in Ec. discriminate. }
  apply encode_uint_inv in Ec as [Hc ->].
  destruct (encode_uint 256 nonce) as [err|en] eqn:En; cbn [bind].
  { split; [discriminate|]. intros (t & _ & _ & Hn & _).
    rewrite (encode_uint_ok 256 _ Hn) in En. discriminate. }
  apply encode_uint_inv in En as [Hn ->].
  rewrite prepend_zx_digest.
  split.
  - intros H. injection H as <-. exists tss. auto.
  - intros (t & Ht & _ & _ & ->). injection Ht as <-. reflexivity.
Qed.

(** Signing a 32-byte digest given as prefixed hex text. *)
Lemma Signer_sign_hex (signer : Signer) (d : list byte) :
  List.length d = 32%nat ->
  Signer_sign signer (PyStr ("0x" ++ bytes_hex d))
  = Return (bytes_hex (ecdsa_sign d (private_key signer))).
Proof.
  intros Hd. unfold Signer_sign, Account_unsafe_sign_hash.
  rewrite HexBytes_new_0x_hex. cbn [bind]. rewrite Hd. reflexivity.
Qed.

Lemma prepend_zx_signature (d : list byte) (k : string) :
  List.length d = 32%nat ->
  prepend_zx (bytes_hex (ecdsa_sign d k)) = "0x" ++ bytes_hex (ecdsa_sign d k).
Proof.
  intros Hd. apply prepend_zx_hex; [apply bytes_hex_all_hex|].
  rewrite bytes_hex_length, ecdsa_sign_length by exact Hd. lia.
Qed.

(** What [sign_clob_auth_message] returns, and exactly when. *)
Lemma sign_clob_auth_message_iff (signer : Signer) (body : string)
    (addr : list byte) (timestamp nonce : Z) (r : string) :
  Signer_address signer = "0x" ++ body ->
  unhexlify body = Some addr -> List.length addr = 20%nat ->
  sign_clob_auth_message signer timestamp nonce = Return r
  <-> exists timestampString,
        str_int timestamp = Return timestampString
        /\ 0 <= chain_id signer < 2 ^ 256 /\ 0 <= nonce < 2 ^ 256
        /\ r = "0x" ++ bytes_hex
                 (ecdsa_sign (spec_digest (chain_id signer) addr
                                timestampString nonce)
                             (private_key signer)).
Proof.
  intros Ha Hu Hl. unfold sign_clob_auth_message.
  pose proof (fun h => auth_struct_hash_iff signer body addr timestamp nonce h Ha Hu Hl)
    as Hh.
  destruct (auth_struct_hash signer timestamp nonce) as [err|h]; cbn [bind].
  - split; [discriminate|]. intros (t & Ht & Hc & Hn & _).
    assert (@Raise string err = Return
              ("0x" ++ bytes_hex (spec_digest (chain_id signer) addr t nonce)))
      by (apply Hh; exists t; auto).
    discriminate.
  - destruct (proj1 (Hh h) eq_refl) as (tss & Ht & Hc & Hn & ->).
    assert (List.length (spec_digest (chain_id signer) addr tss nonce) = 32%nat)
      as Hd by (unfold spec_digest; apply keccak_length).
    rewrite (Signer_sign_hex _ _ Hd). cbn [bind].
    rewrite (prepend_zx_signature _ _ Hd).
    split.
    + intros H. injection H as <-. exists tss. auto.
    + intros (t & Ht' & _ & _ & ->). rewrite Ht in Ht'. injection Ht' as <-.
      reflexivity.
Qed.

(** Whatever [sign_clob_auth_message] returns, for any signer, is the
    prefixed hex text of a signature of a 32-byte digest. *)
Lemma sign_clob_auth_message_returns (signer : Signer) (timestamp nonce : Z)
    (r : string) :
  sign_clob_auth_message signer timestamp nonce = Return r ->
  exists d, List.length d = 32%nat
            /\ r = "0x" ++ bytes_hex (ecdsa_sign d (private_key signer)).
Proof.
  unfold sign_clob_auth_message.
  destruct (auth_struct_hash signer timestamp nonce) as [e|h]; [discriminate|].
  cbn [bind]. unfold Signer_sign, Account_unsafe_sign_hash.
  destruct (HexBytes_new (PyStr h)) as [e|d]; [discriminate|]. cbn [bind].
  destruct (Nat.eqb_spec (List.length d) 32) as [Hd|Hd]; cbn [negb bind];
    [|discriminate].
  intros H. injection H as <-. exists d. split; [exact Hd|].
  unfold HexBytes_hex. now apply prepend_zx_signature.
Qed.

End SigningFacts.

Lemma zero_crypto_laws : CryptoLaws zero_crypto.
Proof.
  split.
  - reflexivity.
  - intros k a H. cbn in H. destruct (String.eqb k EmptyString); [discriminate|].
    injection H as <-.
    exists "0000000000000000000000000000000000000000". repeat split.
  - reflexivity.
Qed.

(* ================================================================== *)
(** ** The signing module: stated properties                            *)
(* ================================================================== *)

Section SigningClaims.
Context {C : Crypto}.

(** C9: constructing a [Signer] fails (with the [ValueError] the module
    raises for a missing argument) when the private key is absent or when
    the chain id is absent; when both are present and [Account.from_key]
    accepts the key, construction succeeds and the signer holds that key
    and that chain id; when [Account.from_key] rejects the key, its error
    is what construction raises. *)
Theorem Signer_init_checks :
  (forall c : option Z,
      Signer_init None c = Raise (ValueError "private_key must not be None"))
  /\ (forall k : string,
      Signer_init (Some k) None = Raise (ValueError "chain_id must not be None"))
  /\ (forall (k : string) (c : Z) (a : LocalAccount),
      Account_from_key k = Return a ->
      exists s, Signer_init (Some k) (Some c) = Return s
                /\ private_key s = k /\ Signer_get_chain_id s = c
                /\ account s = a)
  /\ (forall (k : string) (c : Z) (e : exn),
      Account_from_key k = Raise e ->
      Signer_init (Some k) (Some c) = Raise e).
Proof.
  repeat split.
  - intros k c a Hk. unfold Signer_init. rewrite Hk. cbn [bind].
    eexists. repeat split.
  - intros k c e Hk. unfold Signer_init. now rewrite Hk.
Qed.


Context {HC : CryptoLaws C}.

(** C2: for every constructed signer, timestamp and nonce, the digest
    that [sign_clob_auth_message] signs is
    Keccak256(0x1901 || domainSeparator || hashStruct(authStruct)) as the
    specification words it, [addr] being the signer's address as 20
    bytes: the digest text handed to the signer is the hex text of that
    digest, and the value returned is the hex text of the signature of
    exactly that digest.  Both are produced exactly when the timestamp
    prints as a decimal string and the chain id and the nonce fit
    [uint256]. *)
Theorem sign_clob_auth_message_signs_spec_digest :
  forall (k : string) (c : Z) (signer : Signer) (timestamp nonce : Z),
    Signer_init (Some k) (Some c) = Return signer ->
    exists addr : list byte,
      HexBytes_new (PyStr (Signer_address signer)) = Return addr
      /\ List.length addr = 20%nat
      /\ (forall h : string,
             auth_struct_hash signer timestamp nonce = Return h
             <-> exists timestampString,
                   str_int timestamp = Return timestampString
                   /\ 0 <= c < 2 ^ 256 /\ 0 <= nonce < 2 ^ 256
                   /\ h = "0x" ++ bytes_hex
                            (spec_digest c addr timestampString nonce))
      /\ (forall r : string,
             sign_clob_auth_message signer timestamp nonce = Return r
             <-> exists timestampString,
                   str_int timestamp = Return timestampString
                   /\ 0 <= c < 2 ^ 256 /\ 0 <= nonce < 2 ^ 256
                   /\ r = "0x" ++ bytes_hex
                            (ecdsa_sign
                               (spec_digest c addr timestampString nonce) k)).
Proof.
  intros k c signer timestamp nonce Hs.
  destruct (Signer_address_bytes _ _ _ Hs) as (body & addr & Ha & Hu & Hl).
  apply Signer_init_inv in Hs as (Hk & Hcid & _). subst k c.
  exists addr. repeat split.
  - rewrite Ha. now apply HexBytes_new_0x_body.
  - exact Hl.
  - now apply (auth_struct_hash_iff signer body).
  - now apply (auth_struct_hash_iff signer body).
  - now apply (sign_clob_auth_message_iff signer body).
  - now apply (sign_clob_auth_message_iff signer body).
Qed.

(** C5: for a constructed signer, a timestamp that prints as a decimal
    string, and a chain id and a nonce in the range of [uint256],
    [sign_clob_auth_message] returns [0x] followed by exactly 130 hex
    characters; and whatever it returns, for any signer, timestamp and
    nonce, has that form. *)
Theorem sign_clob_auth_message_format :
  (forall (k : string) (c : Z) (signer : Signer) (timestamp nonce : Z)
          (timestampString : string),
      Signer_init (Some k) (Some c) = Return signer ->
      str_int timestamp = Return timestampString ->
      0 <= c < 2 ^ 256 -> 0 <= nonce < 2 ^ 256 ->
      exists hex : string,
        sign_clob_auth_message signer timestamp nonce = Return ("0x" ++ hex)
        /\ String.length hex = 130%nat /\ all_chars is_hex hex = true)
  /\ (forall (signer : Signer) (timestamp nonce : Z) (r : string),
      sign_clob_auth_message signer timestamp nonce = Return r ->
      exists hex : string,
        r = "0x" ++ hex
        /\ String.length hex = 130%nat /\ all_chars is_hex hex = true).
Proof.
  split.
  - intros k c signer timestamp nonce tss Hs Ht Hc Hn.
    destruct (Signer_address_bytes _ _ _ Hs) as (body & addr & Ha & Hu & Hl).
    apply Signer_init_inv in Hs as (Hk & Hcid & _). subst k c.
    eexists. split.
    + apply (sign_clob_auth_message_iff signer body addr); auto.
      exists tss. auto.
    + split; [|apply bytes_hex_all_hex].
      rewrite bytes_hex_length, ecdsa_sign_length; [reflexivity|].
      unfold spec_digest. apply keccak_length.
  - intros signer timestamp nonce r Hr.
    destruct (sign_clob_auth_message_returns _ _ _ _ Hr) as (d & Hd & ->).
    eexists. split; [reflexivity|]. split; [|apply bytes_hex_all_hex].
    now rewrite bytes_hex_length, ecdsa_sign_length.
Qed.

End SigningClaims.

Section SigningWitnesses.
Local Existing Instance zero_crypto.

Lemma zero_signer_init : Signer_init (Some "0x01") (Some 137) = Return zero_signer.
Proof. reflexivity. Qed.

Lemma Signer_init_checks_witness :
  (exists s, Signer_init (Some "0x01") (Some 137) = Return s
             /\ private_key s = "0x01" /\ Signer_get_chain_id s = 137
             /\ account s = account zero_signer)
  /\ Signer_init (Some EmptyString) (Some 137)
     = Raise (ValueError "The private key must be exactly 32 bytes long").
Proof.
  split.
  - apply (proj1 (proj2 (proj2 (@Signer_init_checks zero_crypto))) "0x01" 137).
    reflexivity.
  - apply (proj2 (proj2 (proj2 (@Signer_init_checks zero_crypto))) EmptyString 137).
    reflexivity.
Defined.


Lemma sign_clob_auth_message_signs_spec_digest_witness :
  exists addr : list byte,
    HexBytes_new (PyStr (Signer_address zero_signer)) = Return addr
    /\ List.length addr = 20%nat
    /\ (forall h : string,
           auth_struct_hash zero_signer 1700000000 1 = Return h
           <-> exists timestampString,
                 str_int 1700000000 = Return timestampString
                 /\ 0 <= 137 < 2 ^ 256 /\ 0 <= 1 < 2 ^ 256
                 /\ h = "0x" ++ bytes_hex (spec_digest 137 addr timestampString 1))
    /\ (forall r : string,
           sign_clob_auth_message zero_signer 1700000000 1 = Return r
           <-> exists timestampString,
                 str_int 1700000000 = Return timestampString
                 /\ 0 <= 137 < 2 ^ 256 /\ 0 <= 1 < 2 ^ 256
                 /\ r = "0x" ++ bytes_hex
                          (ecdsa_sign (spec_digest 137 addr timestampString 1)
                             "0x01")).
Proof.
  apply (@sign_clob_auth_message_signs_spec_digest zero_crypto zero_crypto_laws
           "0x01" 137 zero_signer 1700000000 1).
  exact zero_signer_init.
Defined.

Lemma sign_clob_auth_message_format_witness :
  (exists hex : string,
      sign_clob_auth_message zero_signer 1700000000 1 = Return ("0x" ++ hex)
      /\ String.length hex = 130%nat /\ all_chars is_hex hex = true)
  /\ (exists hex : string,
      "0x" ++ bytes_hex (repeat x00 65) = "0x" ++ hex
      /\ String.length hex = 130%nat /\ all_chars is_hex hex = true).
Proof.
  split.
  - apply (proj1 (@sign_clob_auth_message_format zero_crypto zero_crypto_laws)
             "0x01" 137 zero_signer 1700000000 1 "1700000000").
    + exact zero_signer_init.
    + reflexivity.
    + split; [discriminate | reflexivity].
    + split; [discriminate | reflexivity].
  - apply (proj2 (@sign_clob_auth_message_format zero_crypto zero_crypto_laws)
             zero_signer 1700000000 1).
    reflexivity.
Defined.

(** Replay isolation across chain ids is a property of the primitives,
    not of the way the module composes them: with a hash function that
    collides, the signatures under chain ids 137 and 1 coincide. *)
Remark chain_separation_rests_on_primitives :
  forall s137 s1 : Signer,
    Signer_init (Some "0x01") (Some 137) = Return s137 ->
    Signer_init (Some "0x01") (Some 1) = Return s1 ->
    sign_clob_auth_message s137 1700000000 1
    = sign_clob_auth_message s1 1700000000 1.
Proof.
  intros s137 s1 H137 H1. injection H137 as <-. injection H1 as <-.
  reflexivity.
Qed.

End SigningWitnesses.

Local Close Scope Z_scope.

(* ================================================================== *)
(** ** Facts about [int(text)] and [str(int)]                           *)
(* ================================================================== *)

Local Open Scope Z_scope.

Lemma scan_digits_digit (acc : Z) (n : nat) (b : bool) (c : ascii) (k : Z)
    (s : string) :
  Ascii.eqb c "_" = false -> digit_value c = Some k ->
  scan_digits acc n b (String c s) = scan_digits (10 * acc + k) (S n) false s.
Proof. intros H1 H2. cbn [scan_digits]. now rewrite H1, H2. Qed.

(** Scanning the text of a numeral reads all of it. *)
Lemma scan_digits_uint (d : Decimal.uint) :
  forall (acc : Z) (n : nat),
    scan_digits acc n false (NilEmpty.string_of_uint d)
    = Some (uint_value acc d, (n + Decimal.nb_digits d)%nat, false, EmptyString).
Proof.
  induction d as [|d IH|d IH|d IH|d IH|d IH|d IH|d IH|d IH|d IH|d IH];
    intros acc n;
    cbn [NilEmpty.string_of_uint uint_value Decimal.nb_digits];
    [ now rewrite Nat.add_0_r | .. ];
    (erewrite scan_digits_digit by reflexivity;
     rewrite IH, Nat.add_succ_r; reflexivity).
Qed.

Lemma uint_value_pos (d : Decimal.uint) :
  forall p : positive, uint_value (Zpos p) d = Zpos (Pos.of_uint_acc d p).
Proof.
  induction d as [|d IH|d IH|d IH|d IH|d IH|d IH|d IH|d IH|d IH|d IH];
    intros p; cbn [uint_value Pos.of_uint_acc];
    [ reflexivity | .. ];
    (rewrite <- IH; f_equal; lia).
Qed.

Lemma uint_value_0 (d : Decimal.uint) : uint_value 0 d = Z.of_N (Pos.of_uint d).
Proof.
  induction d as [|d IH|d IH|d IH|d IH|d IH|d IH|d IH|d IH|d IH|d IH];
    cbn [uint_value Pos.of_uint];
    [ reflexivity | exact IH | .. ];
    (cbn [Z.mul Z.add Z.of_N]; apply uint_value_pos).
Qed.

Lemma string_of_uint_length (d : Decimal.uint) :
  String.length (NilEmpty.string_of_uint d) = Decimal.nb_digits d.
Proof.
  induction d; cbn [NilEmpty.string_of_uint String.length Decimal.nb_digits];
    congruence.
Qed.

Lemma digit_char_plain (c : ascii) :
  in_range "0" "9" c = true ->
  is_int_space c = false /\ Ascii.eqb c "+" = false /\ Ascii.eqb c "-" = false
  /\ Ascii.eqb c "_" = false.
Proof. each_ascii c; intros H; try discriminate H; repeat split. Qed.

Lemma string_of_uint_head (d : Decimal.uint) :
  d <> Decimal.Nil ->
  exists c rest, NilEmpty.string_of_uint d = String c rest
                 /\ in_range "0" "9" c = true.
Proof.
  destruct d; intros Hd; try contradiction;
    cbn [NilEmpty.string_of_uint]; do 2 eexists; split; reflexivity.
Qed.

Lemma nb_digits_nonnil (d : Decimal.uint) :
  d <> Decimal.Nil -> Decimal.nb_digits d <> 0%nat.
Proof. destruct d; intros Hd; try contradiction; discriminate. Qed.

Lemma int_digits_uint (negative : bool) (d : Decimal.uint) :
  d <> Decimal.Nil ->
  Nat.ltb int_max_str_digits (Decimal.nb_digits d) = false ->
  int_digits negative (NilEmpty.string_of_uint d)
  = Return (if negative then - uint_value 0 d else uint_value 0 d).
Proof.
  intros Hd Hmax. unfold int_digits.
  destruct (string_of_uint_head d Hd) as (c & rest & Hs & Hc).
  destruct (digit_char_plain c Hc) as (_ & _ & _ & Hu).
  replace (startswith "_" (NilEmpty.string_of_uint d)) with false.
  2:{ rewrite Hs. cbn [startswith]. rewrite Ascii.eqb_sym, Hu. reflexivity. }
  rewrite scan_digits_uint. cbn [Nat.add skip_int_spaces String.eqb negb].
  rewrite (proj2 (Nat.eqb_neq _ _) (nb_digits_nonnil d Hd)), Hmax.
  reflexivity.
Qed.

Lemma int_str_uint (d : Decimal.uint) :
  d <> Decimal.Nil ->
  Nat.ltb int_max_str_digits (Decimal.nb_digits d) = false ->
  int_str (NilEmpty.string_of_uint d) = Return (uint_value 0 d).
Proof.
  intros Hd Hmax. unfold int_str.
  destruct (string_of_uint_head d Hd) as (c & rest & Hs & Hc).
  destruct (digit_char_plain c Hc) as (Hsp & Hplus & Hminus & _).
  rewrite Hs. cbn [skip_int_spaces]. rewrite Hsp, Hplus, Hminus, <- Hs.
  now apply (int_digits_uint false).
Qed.

Lemma int_str_neg_uint (d : Decimal.uint) :
  d <> Decimal.Nil ->
  Nat.ltb int_max_str_digits (Decimal.nb_digits d) = false ->
  int_str (String "-" (NilEmpty.string_of_uint d)) = Return (- uint_value 0 d).
Proof.
  intros Hd Hmax. unfold int_str. cbn [skip_int_spaces].
  change (is_int_space "-") with false. cbv iota.
  change (Ascii.eqb "-" "+") with false. change (Ascii.eqb "-" "-") with true.
  cbv iota. now apply (int_digits_uint true).
Qed.

Lemma int_str_plus_uint (d : Decimal.uint) :
  d <> Decimal.Nil ->
  Nat.ltb int_max_str_digits (Decimal.nb_digits d) = false ->
  int_str (String "+" (NilEmpty.string_of_uint d)) = Return (uint_value 0 d).
Proof.
  intros Hd Hmax. unfold int_str. cbn [skip_int_spaces].
  change (is_int_space "+") with false. cbv iota.
  change (Ascii.eqb "+" "+") with true. cbv iota.
  now apply (int_digits_uint false).
Qed.

Lemma str_int_inv (z : Z) (s : string) :
  str_int z = Return s ->
  s = str_of_int z
  /\ Nat.ltb int_max_str_digits
       (String.length s - (if z <? 0 then 1 else 0)) = false.
Proof.
  unfold str_int.
  destruct (Nat.ltb int_max_str_digits
              (String.length (str_of_int z) - (if z <? 0 then 1 else 0))) eqn:E;
    intros H; [discriminate|].
  injection H as <-. auto.
Qed.

Lemma NilZero_string_of_uint_nonnil (d : Decimal.uint) :
  d <> Decimal.Nil -> NilZero.string_of_uint d = NilEmpty.string_of_uint d.
Proof. destruct d; intros Hd; try contradiction; reflexivity. Qed.

(** [int(str(z)) == z] whenever [str(z)] is produced. *)
Lemma int_str_str_int (z : Z) (s : string) :
  str_int z = Return s -> int_str s = Return z.
Proof.
  intros H. apply str_int_inv in H as [-> Hmax].
  unfold str_of_int in *. destruct z as [|p|p].
  - reflexivity.
  - cbn [Z.to_int NilZero.string_of_int] in *.
    pose proof (Unsigned.to_uint_nonnil p) as Hd.
    rewrite NilZero_string_of_uint_nonnil in * by exact Hd.
    change (Z.pos p <? 0) with false in Hmax. cbv iota in Hmax.
    rewrite Nat.sub_0_r, string_of_uint_length in Hmax.
    rewrite (int_str_uint _ Hd Hmax), uint_value_0, Unsigned.of_to. reflexivity.
  - cbn [Z.to_int NilZero.string_of_int] in *.
    pose proof (Unsigned.to_uint_nonnil p) as Hd.
    rewrite NilZero_string_of_uint_nonnil in * by exact Hd.
    change (Z.neg p <? 0) with true in Hmax. cbv iota in Hmax.
    cbn [String.length] in Hmax.
    rewrite Nat.sub_succ, Nat.sub_0_r, string_of_uint_length in Hmax.
    rewrite (int_str_neg_uint _ Hd Hmax), uint_value_0, Unsigned.of_to.
    reflexivity.
Qed.

(* ================================================================== *)
(** ** Binary digits                                                    *)
(* ================================================================== *)

Lemma digits2_pos_size (p : positive) : digits2_pos p = Pos.size p.
Proof. induction p; cbn [digits2_pos Pos.size]; congruence. Qed.

Lemma Zdigits2_nonneg (m : Z) : 0 <= Zdigits2 m.
Proof. destruct m; cbn [Zdigits2]; lia. Qed.

Lemma digits2_pos_bounds (p : positive) :
  2 ^ (Zpos (digits2_pos p) - 1) <= Zpos p < 2 ^ Zpos (digits2_pos p).
Proof.
  rewrite digits2_pos_size.
  assert (Zpos p < 2 ^ Zpos (Pos.size p)) as Hgt.
  { change 2 with (Zpos 2). rewrite <- Pos2Z.inj_pow.
    apply Pos2Z.pos_lt_pos, Pos.size_gt. }
  assert (2 ^ Zpos (Pos.size p) <= 2 * Zpos p) as Hle.
  { change 2 with (Zpos 2). rewrite <- Pos2Z.inj_pow.
    change (Zpos 2 * Zpos p) with (Zpos p~0).
    apply Pos2Z.pos_le_pos, Pos.size_le. }
  split; [|exact Hgt].
  replace (Zpos (Pos.size p)) with (Z.succ (Zpos (Pos.size p) - 1)) in Hle by lia.
  rewrite Z.pow_succ_r in Hle by lia. lia.
Qed.

Lemma Zdigits2_lt_pow (m : Z) : 0 <= m -> m < 2 ^ Zdigits2 m.
Proof.
  destruct m as [|p|p]; intros Hm; cbn [Zdigits2]; [reflexivity | | lia].
  apply digits2_pos_bounds.
Qed.

Lemma Zdigits2_le_of_lt (m k : Z) : 0 <= m < 2 ^ k -> 0 <= k -> Zdigits2 m <= k.
Proof.
  destruct m as [|p|p]; intros [Hm Hlt] Hk; cbn [Zdigits2]; [exact Hk | | lia].
  pose proof (digits2_pos_bounds p) as [Hlo _].
  assert (2 ^ (Zpos (digits2_pos p) - 1) < 2 ^ k) as Hpow by lia.
  apply Z.pow_lt_mono_r_iff in Hpow; lia.
Qed.

Lemma pow2_pos (k : Z) : 0 <= k -> 0 < 2 ^ k.
Proof. intros Hk. apply Z.pow_pos_nonneg; lia. Qed.

Lemma shr_m_of_loc (m : Z) (l : location) : shr_m (shr_record_of_loc m l) = m.
Proof. destruct l as [|[]]; reflexivity. Qed.

Lemma fexp_eq (x : Z) : fexp prec emax x = Z.max (x - 53) (-1074).
Proof. reflexivity. Qed.

Local Close Scope Z_scope.
(* ================================================================== *)
(** ** [int / int] is the quotient rounded to nearest                   *)
(* ================================================================== *)

Local Open Scope Z_scope.

Lemma Zdigits2_unique (m k : Z) :
  2 ^ (k - 1) <= m < 2 ^ k -> 1 <= k -> Zdigits2 m = k.
Proof.
  intros [Hlo Hhi] Hk.
  assert (0 < 2 ^ (k - 1)) as Hp by (apply pow2_pos; lia).
  assert (Zdigits2 m <= k) as Hle by (apply Zdigits2_le_of_lt; lia).
  pose proof (Zdigits2_lt_pow m ltac:(lia)) as Hlt.
  pose proof (Zdigits2_nonneg m) as Hn.
  assert (2 ^ (k - 1) < 2 ^ Zdigits2 m) as Hpow by lia.
  apply Z.pow_lt_mono_r_iff in Hpow; lia.
Qed.

Lemma Zdigits2_ge_of_le (m k : Z) : 0 <= k -> 2 ^ k <= m -> k + 1 <= Zdigits2 m.
Proof.
  intros Hk Hm.
  assert (0 < 2 ^ k) as Hp by (apply pow2_pos; lia).
  pose proof (Zdigits2_lt_pow m ltac:(lia)) as Hlt.
  pose proof (Zdigits2_nonneg m) as Hn.
  assert (2 ^ k < 2 ^ Zdigits2 m) as Hpow by lia.
  apply Z.pow_lt_mono_r_iff in Hpow; lia.
Qed.

Lemma Zdigits2_lower (m : Z) : 0 < m -> 2 ^ (Zdigits2 m - 1) <= m.
Proof.
  destruct m as [|p|p]; intros Hm; try lia.
  cbn [Zdigits2]. apply digits2_pos_bounds.
Qed.

(** The record built from a quotient and the place of its remainder. *)
Lemma shr_inv_of_loc (A B : Z) :
  0 < B -> Z.even B = true -> 0 <= A ->
  shr_inv A B (shr_record_of_loc (A / B) (new_location B (A mod B))).
Proof.
  intros HB Hev HA. unfold shr_inv, new_location, new_location_even.
  rewrite Hev, shr_m_of_loc.
  pose proof (Z.mod_pos_bound A B HB) as Hr.
  split; [reflexivity|].
  destruct (Z.eqb_spec (A mod B) 0) as [E0|E0].
  - cbn [shr_record_of_loc shr_r shr_s]. split; split; intros H;
      try discriminate H; lia.
  - destruct (Z.compare_spec (2 * (A mod B)) B) as [E|E|E];
      cbn [shr_record_of_loc shr_r shr_s]; split; split; intros H;
      try discriminate H; try reflexivity; lia.
Qed.

(** One shift to the right halves the denominator's scale. *)
Lemma shr_inv_1 (A B : Z) (mrs : shr_record) :
  0 < B -> 0 <= A -> shr_inv A B mrs -> shr_inv A (2 * B) (shr_1 mrs).
Proof.
  intros HB HA. destruct mrs as [m r s]. unfold shr_inv. cbn [shr_m shr_r shr_s].
  intros (Hm & Hr & Hs).
  pose proof (Z.mod_pos_bound A B HB) as Hrem.
  pose proof (Z.div_mod A B ltac:(lia)) as Hdm.
  assert (0 <= A / B) as Hq by (apply Z.div_pos; lia).
  set (rem := A mod B) in *. set (q := A / B) in *.
  assert (orb r s = true <-> rem <> 0) as Hrs.
  { rewrite orb_true_iff, Hr, Hs. lia. }
  assert (forall h b, 0 <= h -> (b = 0 \/ b = 1) -> m = 2 * h + b ->
            A / (2 * B) = h /\ A mod (2 * B) = b * B + rem) as Hcut.
  { intros h b Hh Hb Hmb.
    assert (A = 2 * B * h + (b * B + rem)) as HA' by nia.
    assert (0 <= b * B + rem < 2 * B) as Hbound by nia.
    split.
    - symmetry. apply (Z.div_unique A (2 * B) h (b * B + rem)); [lia | exact HA'].
    - symmetry. apply (Z.mod_unique A (2 * B) h (b * B + rem)); [lia | exact HA']. }
  destruct m as [|[p|p|]|p]; try lia; cbn [shr_1 shr_m shr_r shr_s].
  - destruct (Hcut 0 0) as [Hd Hmod]; [lia | lia | lia |].
    rewrite Hd, Hmod, Hrs. split; [reflexivity|]. split; split; intros H;
      try discriminate H; lia.
  - destruct (Hcut (Zpos p) 1) as [Hd Hmod]; [lia | lia | lia |].
    rewrite Hd, Hmod, Hrs. split; [reflexivity|]. split; split; intros H;
      try reflexivity; lia.
  - destruct (Hcut (Zpos p) 0) as [Hd Hmod]; [lia | lia | lia |].
    rewrite Hd, Hmod, Hrs. split; [reflexivity|]. split; split; intros H;
      try discriminate H; lia.
  - destruct (Hcut 0 1) as [Hd Hmod]; [lia | lia | lia |].
    rewrite Hd, Hmod, Hrs. split; [reflexivity|]. split; split; intros H;
      try reflexivity; lia.
Qed.

Lemma shr_inv_iter (p : positive) :
  forall (A B : Z) (mrs : shr_record),
    0 < B -> 0 <= A -> shr_inv A B mrs ->
    shr_inv A (B * 2 ^ Zpos p) (iter_pos shr_1 p mrs).
Proof.
  induction p as [p IH|p IH|]; intros A B mrs HB HA H; cbn [iter_pos].
  - assert (0 < 2 ^ Zpos p) as Hp by (apply pow2_pos; lia).
    replace (B * 2 ^ Zpos p~1) with (2 * B * 2 ^ Zpos p * 2 ^ Zpos p).
    2:{ replace (2 * B * 2 ^ Zpos p * 2 ^ Zpos p)
          with (B * (2 ^ Zpos p * 2 ^ Zpos p * 2 ^ 1)) by ring.
        rewrite <- !Z.pow_add_r by lia. do 2 f_equal. lia. }
    apply IH; [nia | exact HA |]. apply IH; [lia | exact HA |].
    now apply shr_inv_1.
  - assert (0 < 2 ^ Zpos p) as Hp by (apply pow2_pos; lia).
    replace (B * 2 ^ Zpos p~0) with (B * 2 ^ Zpos p * 2 ^ Zpos p).
    2:{ rewrite <- Z.mul_assoc, <- Z.pow_add_r by lia. do 2 f_equal. lia. }
    apply IH; [nia | exact HA |]. now apply IH.
  - change (2 ^ 1) with 2. rewrite Z.mul_comm. now apply shr_inv_1.
Qed.

(** A shift by [n] places, as [shr] does it. *)
Lemma shr_inv_shr (A B : Z) (mrs : shr_record) (e n : Z) :
  0 < B -> 0 <= A -> 0 <= n -> shr_inv A B mrs ->
  exists mrs', shr mrs e n = (mrs', e + n) /\ shr_inv A (B * 2 ^ n) mrs'.
Proof.
  intros HB HA Hn H. destruct n as [|p|p]; [| |lia]; cbn [shr].
  - exists mrs. rewrite Z.add_0_r, Z.mul_1_r. auto.
  - eexists. split; [reflexivity|]. now apply shr_inv_iter.
Qed.

(** Rounding the record to nearest, ties to even: the result is an
    integer at most one half away from [A / B]. *)
Lemma round_nearest_even_inv (A B : Z) (mrs : shr_record) :
  0 < B -> 0 <= A -> shr_inv A B mrs ->
  2 * Z.abs (round_nearest_even (shr_m mrs) (loc_of_shr_record mrs) * B - A) <= B
  /\ A / B <= round_nearest_even (shr_m mrs) (loc_of_shr_record mrs) <= A / B + 1.
Proof.
  intros HB HA. destruct mrs as [m r s]. unfold shr_inv. cbn [shr_m shr_r shr_s].
  intros (Hm & Hr & Hs).
  pose proof (Z.mod_pos_bound A B HB) as Hrem.
  pose proof (Z.div_mod A B ltac:(lia)) as Hdm.
  rewrite <- Hm in *. set (rem := A mod B) in *.
  destruct r, s; cbn [loc_of_shr_record round_nearest_even].
  - assert (B <= 2 * rem) by (now apply Hr). split; [|lia].
    replace ((m + 1) * B - A) with (B - rem) by nia. lia.
  - assert (B <= 2 * rem) by (now apply Hr).
    assert (2 * rem = B) as Hhalf.
    { destruct (Z.eq_dec (2 * rem) B) as [E|E]; [exact E|].
      assert (false = true) as Habs by (apply Hs; lia). discriminate Habs. }
    destruct (Z.even m); (split; [|lia]).
    + replace (m * B - A) with (- rem) by nia. lia.
    + replace ((m + 1) * B - A) with (B - rem) by nia. lia.
  - assert (~ B <= 2 * rem) as Hlt.
    { intros Hge. apply Hr in Hge. discriminate Hge. }
    split; [|lia]. replace (m * B - A) with (- rem) by nia. lia.
  - assert (rem = 0) as Hz.
    { destruct (Z.eq_dec rem 0) as [E|E]; [exact E|].
      assert (~ B <= 2 * rem) as Hlt.
      { intros Hge. apply Hr in Hge. discriminate Hge. }
      assert (false = true) as Habs by (apply Hs; lia). discriminate Habs. }
    split; [|lia]. replace (m * B - A) with 0 by nia. lia.
Qed.

(** Rounding a quotient [A / B] of at least 53 bits to binary64: the
    result is a finite number whose mantissa has exactly 53 bits, at an
    exponent [ez + n], and lies within half a unit in the last place of
    the exact fraction. *)
Lemma binary_round_aux_nearest (sx : bool) (A B ez : Z) :
  0 < B -> Z.even B = true -> 0 <= A ->
  2 ^ 52 <= A / B -> -1074 <= ez -> Zdigits2 (A / B) + ez <= 1023 ->
  exists (m : positive) (n : Z),
    binary_round_aux prec emax sx (A / B) ez (new_location B (A mod B))
    = S754_finite sx m (ez + n)
    /\ 0 <= n
    /\ 2 ^ 52 <= Zpos m < 2 ^ 53
    /\ 2 * Z.abs (Zpos m * (B * 2 ^ n) - A) <= B * 2 ^ n.
Proof.
  intros HB Hev HA Hq Hez Hd.
  set (q := A / B) in *. set (dq := Zdigits2 q) in *.
  assert (53 <= dq) as Hdq by (apply (Zdigits2_ge_of_le q 52); lia).
  assert (0 < q) as Hq0 by (assert (0 < 2 ^ 52) by reflexivity; lia).
  pose proof (Zdigits2_lower q Hq0) as Hqlo. fold dq in Hqlo.
  pose proof (Zdigits2_lt_pow q ltac:(lia)) as Hqhi. fold dq in Hqhi.
  set (n1 := dq - 53).
  assert (0 < 2 ^ n1) as Hp1 by (apply pow2_pos; lia).
  unfold binary_round_aux, shr_fexp. fold dq.
  rewrite fexp_eq, Z.max_l by lia.
  replace (dq + ez - 53 - ez) with n1 by (unfold n1; lia).
  destruct (shr_inv_shr A B (shr_record_of_loc q (new_location B (A mod B)))
              ez n1 HB HA ltac:(unfold n1; lia) (shr_inv_of_loc A B HB Hev HA))
    as (mrs1 & -> & Hinv).
  assert (0 < B * 2 ^ n1) as HB1 by nia.
  pose proof (round_nearest_even_inv A (B * 2 ^ n1) mrs1 HB1 HA Hinv) as [Hhalf Hmr].
  set (mr := round_nearest_even (shr_m mrs1) (loc_of_shr_record mrs1)) in *.
  assert (A / (B * 2 ^ n1) = q / 2 ^ n1) as Hdiv
      by (unfold q; rewrite Z.div_div by lia; reflexivity).
  rewrite Hdiv in Hmr.
  assert (2 ^ 52 <= q / 2 ^ n1 < 2 ^ 53) as Hm1.
  { split.
    - apply Z.div_le_lower_bound; [exact Hp1|].
      rewrite <- Z.pow_add_r by (unfold n1; lia).
      replace (n1 + 52) with (dq - 1) by (unfold n1; lia). exact Hqlo.
    - apply Z.div_lt_upper_bound; [exact Hp1|].
      rewrite <- Z.pow_add_r by (unfold n1; lia).
      replace (n1 + 53) with dq by (unfold n1; lia). exact Hqhi. }
  destruct (Z.eq_dec mr (2 ^ 53)) as [Ecarry|Ecarry].
  - (* the rounding carried into a 54th bit *)
    rewrite Ecarry in *.
    change (Zdigits2 (2 ^ 53)) with 54.
    rewrite fexp_eq, Z.max_l by (unfold n1; lia).
    replace (54 + (ez + n1) - 53 - (ez + n1)) with 1 by lia.
    change (2 ^ 53) with 9007199254740992 at 1.
    cbn [shr shr_record_of_loc iter_pos shr_1 shr_m].
    replace (ez + n1 + 1 <=? emax - prec) with true
      by (symmetry; apply Z.leb_le; unfold emax, prec, n1; lia).
    exists 4503599627370496%positive, (n1 + 1).
    split; [f_equal; lia|]. split; [unfold n1; lia|].
    split; [split; [apply Z.le_refl | reflexivity]|].
    rewrite Z.pow_add_r by (unfold n1; lia). change (2 ^ 1) with 2.
    replace (Zpos 4503599627370496 * (B * (2 ^ n1 * 2)))
      with (2 ^ 53 * (B * 2 ^ n1)) by (change (2 ^ 53) with 9007199254740992; ring).
    lia.
  - assert (2 ^ 52 <= mr < 2 ^ 53) as Hmrb by lia.
    rewrite (Zdigits2_unique mr 53) by (try exact Hmrb; lia).
    rewrite fexp_eq, Z.max_l by (unfold n1; lia).
    replace (53 + (ez + n1) - 53 - (ez + n1)) with 0 by lia.
    cbn [shr shr_record_of_loc shr_m].
    destruct mr as [|pm|pm] eqn:Emr; [cbn in Hmrb; lia | | lia].
    replace (ez + n1 <=? emax - prec) with true
      by (symmetry; apply Z.leb_le; unfold emax, prec, n1; lia).
    exists pm, n1. split; [reflexivity|]. split; [unfold n1; lia|].
    split; [exact Hmrb | exact Hhalf].
Qed.

(** [p / 10**6], for a positive [p] below 2^1000. *)
Lemma SFdiv_million_nearest (sx : bool) (p : positive) :
  Zpos p < 2 ^ 1000 ->
  exists (m : positive) (e : Z),
    SFdiv prec emax (S754_finite sx p 0) (S754_finite false 1000000 0)
    = S754_finite sx m e
    /\ rounds_to (Zpos p) (10 ^ 6) m e.
Proof.
  intros Hp. unfold SFdiv, SFdiv_core_binary. rewrite xorb_false_r.
  change (Zdigits2 (Zpos 1000000) + 0) with 20.
  set (d1 := Zdigits2 (Zpos p)).
  assert (1 <= d1 <= 1000) as Hd1.
  { split; [unfold d1; cbn [Zdigits2]; lia|].
    apply Zdigits2_le_of_lt; lia. }
  pose proof (Zdigits2_lower (Zpos p) ltac:(lia)) as Hplo. fold d1 in Hplo.
  pose proof (Zdigits2_lt_pow (Zpos p) ltac:(lia)) as Hphi. fold d1 in Hphi.
  rewrite fexp_eq, Z.max_l by lia.
  set (ez := Z.min (d1 + 0 - 20 - 53) (0 - 0)).
  assert (-72 <= ez <= 0) as Hez by (unfold ez; lia).
  set (m' := match 0 - 0 - ez with
             | 0 => Zpos p
             | Zpos _ => Z.shiftl (Zpos p) (0 - 0 - ez)
             | Zneg _ => 0
             end).
  assert (m' = Zpos p * 2 ^ (- ez)) as Hm'.
  { unfold m'. replace (0 - 0 - ez) with (- ez) by lia.
    destruct (- ez) as [|k|k] eqn:Ek; [cbn; lia | | lia].
    rewrite Z.shiftl_mul_pow2 by lia. reflexivity. }
  assert (0 < 2 ^ (- ez)) as Hpow by (apply pow2_pos; lia).
  assert (0 <= m') as Hm0 by nia.
  assert (Z.div_eucl m' (Zpos 1000000) = (m' / 1000000, m' mod 1000000)) as Heucl.
  { unfold Z.div, Z.modulo. now destruct (Z.div_eucl m' (Zpos 1000000)). }
  rewrite Heucl.
  assert (2 ^ 72 <= m') as Hbig.
  { rewrite Hm'. destruct (Z_le_gt_dec d1 73) as [Hle|Hgt].
    - replace (- ez) with (73 - d1) by (unfold ez; lia).
      replace 72 with ((d1 - 1) + (73 - d1)) by lia.
      rewrite Z.pow_add_r by lia.
      apply Z.mul_le_mono_nonneg_r; [|exact Hplo].
      apply Z.lt_le_incl, pow2_pos. lia.
    - replace (- ez) with 0 by (unfold ez; lia). rewrite Z.mul_1_r.
      apply Z.le_trans with (2 ^ (d1 - 1)); [|exact Hplo].
      apply Z.pow_le_mono_r; lia. }
  assert (2 ^ 52 <= m' / 1000000) as Hq.
  { apply Z.div_le_lower_bound; [lia|].
    apply Z.le_trans with (2 ^ 72); [|exact Hbig]. vm_compute. discriminate. }
  assert (Zdigits2 (m' / 1000000) + ez <= 1023) as Hdq.
  { assert (Zdigits2 (m' / 1000000) <= d1 - ez); [|lia].
    apply Zdigits2_le_of_lt; [|lia]. split; [apply Z.div_pos; lia|].
    apply Z.le_lt_trans with m'.
    - apply Z.div_le_upper_bound; lia.
    - rewrite Hm'. replace (d1 - ez) with (d1 + - ez) by lia.
      rewrite Z.pow_add_r by lia.
      apply Z.mul_lt_mono_pos_r; [exact Hpow | exact Hphi]. }
  destruct (binary_round_aux_nearest sx m' 1000000 ez
              ltac:(lia) eq_refl Hm0 Hq ltac:(lia) Hdq)
    as (m & n & Hres & Hn & Hm & Hhalf).
  exists m, (ez + n). split; [exact Hres|].
  split; [exact Hm|].
  change (10 ^ 6) with 1000000.
  rewrite Hm' in Hhalf.
  assert (0 < 2 ^ n) as Hpn by (apply pow2_pos; lia).
  destruct (Z_le_gt_dec 0 (ez + n)) as [Hpos|Hneg].
  - rewrite Z.max_l, Z.max_r by lia. rewrite Z.pow_0_r, Z.mul_1_r.
    assert (0 < 2 ^ (ez + n)) as Hpe by (apply pow2_pos; lia).
    assert (2 ^ n = 2 ^ (ez + n) * 2 ^ (- ez)) as Hsplit.
    { rewrite <- Z.pow_add_r by lia. f_equal. lia. }
    rewrite Hsplit in Hhalf.
    set (X := 2 ^ (ez + n)) in *. set (Y := 2 ^ (- ez)) in *.
    replace (Zpos m * (1000000 * (X * Y)) - Zpos p * Y)
      with ((Zpos m * X * 1000000 - Zpos p) * Y) in Hhalf by ring.
    rewrite Z.abs_mul, (Z.abs_eq Y) in Hhalf by lia.
    nia.
  - rewrite Z.max_r, Z.max_l by lia. rewrite Z.pow_0_r, Z.mul_1_r, Z.mul_1_l.
    assert (0 < 2 ^ (- (ez + n))) as Hpe by (apply pow2_pos; lia).
    assert (2 ^ (- ez) = 2 ^ (- (ez + n)) * 2 ^ n) as Hsplit.
    { rewrite <- Z.pow_add_r by lia. f_equal. lia. }
    rewrite Hsplit in Hhalf.
    set (X := 2 ^ (- (ez + n))) in *. set (Y := 2 ^ n) in *.
    replace (Zpos m * (1000000 * Y) - Zpos p * (X * Y))
      with ((Zpos m * 1000000 - Zpos p * X) * Y) in Hhalf by ring.
    rewrite Z.abs_mul, (Z.abs_eq Y) in Hhalf by lia.
    nia.
Qed.

(** [z / 10**6] for an [int] [z] other than zero and below 2^1000 in
    magnitude: the float of the sign of [z] nearest to the quotient. *)
Lemma int_true_divide_million_nearest (z : Z) :
  z <> 0 -> Z.abs z < 2 ^ 1000 ->
  exists (m : positive) (e : Z),
    int_true_divide z (10 ^ 6) = Return (SF2Prim (S754_finite (z <? 0) m e))
    /\ rounds_to (Z.abs z) (10 ^ 6) m e.
Proof.
  intros Hz Hlt. unfold int_true_divide.
  change (10 ^ 6 =? 0) with false. cbv iota.
  change (SF_of_int (10 ^ 6)) with (S754_finite false 1000000 0).
  destruct z as [|p|p]; [contradiction | |]; cbn [SF_of_int Z.abs].
  - destruct (SFdiv_million_nearest false p Hlt) as (m & e & -> & H).
    exists m, e. split; [reflexivity | exact H].
  - destruct (SFdiv_million_nearest true p Hlt) as (m & e & -> & H).
    exists m, e. split; [reflexivity | exact H].
Qed.

Local Close Scope Z_scope.
Local Open Scope Z_scope.

(* ================================================================== *)
(** ** [GQLPosition._parse_balance]                                     *)
(* ================================================================== *)

Lemma float_of_int_million : float_of_int (10 ^ 6) = Return 1000000%float.
Proof. vm_compute. reflexivity. Qed.

(** Any text that [int] accepts is scaled as the integer it denotes. *)
Lemma parse_balance_text (s : string) (z : Z) :
  int_str s = Return z -> _parse_balance (PyStr s) = int_true_divide z (10 ^ 6).
Proof. intros H. unfold _parse_balance. rewrite H. reflexivity. Qed.

(** Text that [int] refuses is refused with the same error. *)
Lemma parse_balance_bad_text (s : string) (e : exn) :
  int_str s = Raise e -> _parse_balance (PyStr s) = Raise e.
Proof. intros H. unfold _parse_balance. rewrite H. reflexivity. Qed.

(** The text of a decimal numeral, with or without a sign, is read as
    the integer it denotes.  Leading zeros are allowed; the digits are
    at most the 4300 the interpreter converts. *)
Lemma parse_balance_numeral (d : Decimal.uint) :
  d <> Decimal.Nil -> (Decimal.nb_digits d <= 4300)%nat ->
  _parse_balance (PyStr (NilEmpty.string_of_uint d))
  = _parse_balance (PyInt (Z.of_uint d))
  /\ _parse_balance (PyStr (String "+" (NilEmpty.string_of_uint d)))
     = _parse_balance (PyInt (Z.of_uint d))
  /\ _parse_balance (PyStr (String "-" (NilEmpty.string_of_uint d)))
     = _parse_balance (PyInt (- Z.of_uint d)).
Proof.
  intros Hd Hlen.
  assert (Nat.ltb int_max_str_digits (Decimal.nb_digits d) = false) as Hmax
      by (apply Nat.ltb_ge; exact Hlen).
  unfold Z.of_uint. rewrite <- uint_value_0.
  split; [|split].
  - apply parse_balance_text. now apply int_str_uint.
  - apply parse_balance_text. now apply int_str_plus_uint.
  - apply parse_balance_text. now apply int_str_neg_uint.
Qed.

(** C10: the balance is the integer divided by 10**6.  An [int] balance
    [z] other than zero, below 2^1000 in magnitude, is parsed to the
    binary64 number of the sign of [z] whose 53-bit mantissa [m] and
    exponent [e] put [m * 2^e] within half a unit in the last place of
    [|z| / 10**6]; zero is parsed to [0.0].  A text balance made of
    decimal digits, with or without a sign, is parsed as the integer it
    denotes, and so is the text that [str] prints for an integer.  A
    [float] balance [f] is parsed to [f / 1000000.0].  (Beyond these
    bounds Python raises: [OverflowError] for a quotient too large for a
    float, [ValueError] for more than 4300 digits.) *)
Theorem parse_balance_scales :
  (forall z : Z,
      z <> 0 -> Z.abs z < 2 ^ 1000 ->
      exists (m : positive) (e : Z),
        _parse_balance (PyInt z) = Return (SF2Prim (S754_finite (z <? 0) m e))
        /\ rounds_to (Z.abs z) (10 ^ 6) m e)
  /\ _parse_balance (PyInt 0) = Return 0%float
  /\ (forall d : Decimal.uint,
      d <> Decimal.Nil -> (Decimal.nb_digits d <= 4300)%nat ->
      _parse_balance (PyStr (NilEmpty.string_of_uint d))
      = _parse_balance (PyInt (Z.of_uint d))
      /\ _parse_balance (PyStr (String "+" (NilEmpty.string_of_uint d)))
         = _parse_balance (PyInt (Z.of_uint d))
      /\ _parse_balance (PyStr (String "-" (NilEmpty.string_of_uint d)))
         = _parse_balance (PyInt (- Z.of_uint d)))
  /\ (forall (z : Z) (s : string),
      str_int z = Return s ->
      _parse_balance (PyStr s) = _parse_balance (PyInt z))
  /\ (forall f : float,
      _parse_balance (PyFloat f) = Return (PrimFloat.div f 1000000%float)).
Proof.
  split; [|split; [|split; [|split]]].
  - intros z Hz Hlt. now apply int_true_divide_million_nearest.
  - reflexivity.
  - exact parse_balance_numeral.
  - intros z s H. apply parse_balance_text. now apply int_str_str_int.
  - intros f. unfold _parse_balance. cbn [bind truediv].
    rewrite float_of_int_million. reflexivity.
Qed.

Lemma parse_balance_scales_witness :
  _parse_balance (PyStr "2500000") = Return 2.5%float
  /\ exists (m : positive) (e : Z),
       _parse_balance (PyInt 2500000) = Return (SF2Prim (S754_finite false m e))
       /\ rounds_to 2500000 (10 ^ 6) m e.
Proof.
  split.
  - etransitivity.
    + apply (proj1 (proj2 (proj2 parse_balance_scales))
               (Decimal.D2 (Decimal.D5 (Decimal.D0 (Decimal.D0 (Decimal.D0
                  (Decimal.D0 (Decimal.D0 Decimal.Nil)))))))).
      * discriminate.
      * cbn [Decimal.nb_digits]. lia.
    + vm_compute. reflexivity.
  - apply (proj1 parse_balance_scales 2500000).
    + discriminate.
    + reflexivity.
Defined.

(** Concrete balances: 2500000 is 2.5, an integer 1 is one millionth,
    text with a fraction is refused, and so is text that begins with the
    separator of code 28, which [int] does not strip. *)
Example parse_balance_examples :
  _parse_balance (PyStr "2500000") = Return 2.5%float
  /\ _parse_balance (PyStr "-500000") = Return (-0.5)%float
  /\ _parse_balance (PyInt 1) = Return (PrimFloat.div 1 1000000)%float
  /\ _parse_balance (PyFloat 2500000%float) = Return 2.5%float
  /\ _parse_balance (PyStr "2.5")
     = Raise (ValueError "invalid literal for int() with base 10")
  /\ _parse_balance (PyStr (String (ascii_of_nat 28) "5"))
     = Raise (ValueError "invalid literal for int() with base 10")
  /\ _parse_balance (PyStr (String (ascii_of_nat 160) "5"))
     = Return (PrimFloat.div 5 1000000)%float
  /\ _parse_balance (PyInt (10 ^ 320))
     = Raise (OverflowError "integer division result too large for a float").
Proof. repeat split; vm_compute; reflexivity. Qed.

Local Close Scope Z_scope.

(* ================================================================== *)
(** ** Facts about dictionaries                                         *)
(* ================================================================== *)

Lemma dget_app (k : string) (d1 d2 : pydict) :
  dget k (d1 ++ d2)%list
  = match dget k d1 with
    | Some x => Some x
    | None => dget k d2
    end.
Proof.
  induction d1 as [|[k' v] d1 IH]; [reflexivity|].
  cbn [app dget]. now destruct (String.eqb k' k).
Qed.

Lemma dget_setdefault (k' k : string) (v : json) (d : pydict) :
  dget k' (setdefault k v d)
  = match dget k' d with
    | Some x => Some x
    | None => if String.eqb k k' then Some v else None
    end.
Proof.
  unfold setdefault. destruct (dget k d) as [x|] eqn:Ek.
  - destruct (dget k' d) as [y|] eqn:Ek'; [reflexivity|].
    destruct (String.eqb_spec k k') as [->|_]; [congruence | reflexivity].
  - rewrite dget_app. cbn [dget]. reflexivity.
Qed.

Lemma dget_dpop (k' k : string) (d : pydict) :
  dget k' (dpop k d) = if String.eqb k k' then None else dget k' d.
Proof.
  unfold dpop. induction d as [|[k0 v] d IH].
  - now destruct (String.eqb k k').
  - cbn [filter fst dget].
    destruct (String.eqb_spec k0 k) as [->|Hne]; cbn [negb].
    + rewrite IH. now destruct (String.eqb k k').
    + cbn [dget]. rewrite IH.
      destruct (String.eqb_spec k0 k') as [->|Hne']; [|reflexivity].
      destruct (String.eqb_spec k k') as [->|_]; [contradiction | reflexivity].
Qed.

Lemma dget_None_keys (k : string) (d : pydict) :
  dget k d = None <-> ~ In k (keys d).
Proof.
  unfold keys. induction d as [|[k' v] d IH]; cbn [dget map fst In].
  - tauto.
  - destruct (String.eqb_spec k' k) as [->|Hne].
    + split; [discriminate | intros H; exfalso; apply H; now left].
    + rewrite IH. tauto.
Qed.

Lemma keys_setdefault_NoDup (k : string) (v : json) (d : pydict) :
  NoDup (keys d) -> NoDup (keys (setdefault k v d)).
Proof.
  intros Hd. unfold setdefault. destruct (dget k d) as [x|] eqn:Ek; [exact Hd|].
  unfold keys. rewrite map_app. cbn [map fst].
  apply NoDup_app; [exact Hd | repeat constructor; intros [] | ].
  intros a Ha [<-|[]]. apply dget_None_keys in Ek. contradiction.
Qed.

Lemma keys_dpop_NoDup (k : string) (d : pydict) :
  NoDup (keys d) -> NoDup (keys (dpop k d)).
Proof.
  unfold keys, dpop. induction d as [|[k' v] d IH]; intros Hd; [constructor|].
  cbn [filter fst map] in *. inversion Hd as [|? ? Hn Hd']; subst.
  destruct (negb (String.eqb k' k)); [|now apply IH].
  cbn [map fst]. constructor; [|now apply IH].
  intros Hin. apply Hn. apply in_map_iff in Hin as ([k0 v0] & <- & Hf).
  apply filter_In in Hf as [Hf _]. apply in_map_iff. now exists (k0, v0).
Qed.

(* ================================================================== *)
(** ** [GQLPosition._flatten]                                           *)
(* ================================================================== *)

Lemma dget_opt_setdefault (k' k : string) (o : option json) (d : pydict) :
  dget k' (opt_setdefault k o d)
  = match dget k' d with
    | Some x => Some x
    | None => if String.eqb k k' then o else None
    end.
Proof.
  destruct o as [v|]; cbn [opt_setdefault].
  - apply dget_setdefault.
  - destruct (dget k' d); [reflexivity | now destruct (String.eqb k k')].
Qed.

Lemma keys_opt_setdefault_NoDup (k : string) (o : option json) (d : pydict) :
  NoDup (keys d) -> NoDup (keys (opt_setdefault k o d)).
Proof. destruct o; cbn [opt_setdefault]; [apply keys_setdefault_NoDup | auto]. Qed.

(** With a dict-valued [asset], [_flatten] is four conditional
    [setdefault]s followed by the removal of [asset]. *)
Lemma flatten_steps (values asset : pydict) :
  dget "asset" values = Some (JDict asset) ->
  _flatten values
  = dpop "asset"
      (opt_setdefault "outcome_index" (asset_value asset "outcome_index")
         (opt_setdefault "condition_id" (asset_value asset "condition_id")
            (opt_setdefault "complementary_token_id"
               (asset_value asset "complementary_token_id")
               (opt_setdefault "token_id" (asset_value asset "token_id") values)))).
Proof.
  intros Ha. unfold _flatten. rewrite Ha.
  change (asset_value asset "token_id") with (dget "id" asset).
  change (asset_value asset "complementary_token_id") with (dget "complement" asset).
  change (asset_value asset "outcome_index") with (dget "outcomeIndex" asset).
  change (asset_value asset "condition_id")
    with (match dget "condition" asset with
          | Some (JDict condition) => dget "id" condition
          | _ => None
          end).
  destruct (dget "id" asset) as [id|];
    destruct (dget "complement" asset) as [co|];
    destruct (dget "outcomeIndex" asset) as [oi|];
    destruct (dget "condition" asset) as [[| | | | | |condition]|];
    try reflexivity;
    destruct (dget "id" condition); reflexivity.
Qed.

(** Every lookup in the flattened record, in terms of the raw one. *)
Lemma dget_flatten (values asset : pydict) (k : string) :
  dget "asset" values = Some (JDict asset) ->
  dget k (_flatten values)
  = if String.eqb "asset" k then None
    else match dget k values with
         | Some x => Some x
         | None => asset_value asset k
         end.
Proof.
  intros Ha. rewrite (flatten_steps _ _ Ha), dget_dpop.
  destruct (String.eqb "asset" k); [reflexivity|].
  rewrite !dget_opt_setdefault.
  destruct (dget k values) as [x|]; [reflexivity|].
  destruct (String.eqb_spec "token_id" k) as [<-|H1];
    [now destruct (asset_value asset "token_id")|].
  destruct (String.eqb_spec "complementary_token_id" k) as [<-|H2];
    [now destruct (asset_value asset "complementary_token_id")|].
  destruct (String.eqb_spec "condition_id" k) as [<-|H3];
    [now destruct (asset_value asset "condition_id")|].
  destruct (String.eqb_spec "outcome_index" k) as [<-|H4];
    [now destruct (asset_value asset "outcome_index")|].
  unfold asset_value.
  destruct (String.eqb_spec k "token_id") as [->|_]; [contradiction|].
  destruct (String.eqb_spec k "complementary_token_id") as [->|_]; [contradiction|].
  destruct (String.eqb_spec k "condition_id") as [->|_]; [contradiction|].
  destruct (String.eqb_spec k "outcome_index") as [->|_]; [contradiction|].
  reflexivity.
Qed.

Lemma flatten_no_dict_asset (values : pydict) :
  (forall asset, dget "asset" values <> Some (JDict asset)) ->
  _flatten values = values.
Proof.
  intros H. unfold _flatten.
  destruct (dget "asset" values) as [[| | | | | |asset]|] eqn:E; try reflexivity.
  now destruct (H asset).
Qed.

Lemma flatten_asset_not_dict (values asset : pydict) :
  dget "asset" (_flatten values) <> Some (JDict asset).
Proof.
  destruct (dget "asset" values) as [[| | | | | |a]|] eqn:E;
    try (rewrite flatten_no_dict_asset by (intros a'; rewrite E; discriminate);
         rewrite E; discriminate).
  rewrite (dget_flatten _ _ _ E). discriminate.
Qed.

(** X1: after [_flatten] the record never holds a dict under [asset]:
    a dict-valued [asset] is folded into the top level and removed, and
    anything else is left as it is. *)
Theorem flatten_removes_asset :
  forall (values : pydict) (asset : pydict),
    dget "asset" (_flatten values) <> Some (JDict asset)
    /\ (dget "asset" values = Some (JDict asset) ->
        dget "asset" (_flatten values) = None)
    /\ ((forall a, dget "asset" values <> Some (JDict a)) ->
        _flatten values = values).
Proof.
  intros values asset. split; [apply flatten_asset_not_dict | split].
  - intros E. now rewrite (dget_flatten _ _ _ E).
  - apply flatten_no_dict_asset.
Qed.

Lemma flatten_removes_asset_witness :
  dget "asset" (_flatten sample_position) = None
  /\ _flatten [("balance", JStr "1"); ("asset", JNone)]
     = [("balance", JStr "1"); ("asset", JNone)].
Proof.
  split.
  - apply (proj1 (proj2 (flatten_removes_asset sample_position sample_asset))).
    reflexivity.
  - apply (proj2 (proj2 (flatten_removes_asset
                           [("balance", JStr "1"); ("asset", JNone)] [])));
      discriminate.
Defined.

(** X2: [_flatten] is idempotent: flattening an already flattened record
    changes nothing. *)
Theorem flatten_idempotent :
  forall values : pydict, _flatten (_flatten values) = _flatten values.
Proof.
  intros values. apply flatten_no_dict_asset.
  intros asset. apply flatten_asset_not_dict.
Qed.

(** X3: values already present at the top level win over the nested
    ones (every key but [asset] keeps the value it had), and keys other
    than [asset] and the four flattened names are neither added nor
    changed; in particular [balance] and [user] reach their validators
    untouched. *)
Theorem flatten_keeps_top_level :
  forall (values : pydict) (k : string),
    k <> "asset" ->
    (forall x, dget k values = Some x -> dget k (_flatten values) = Some x)
    /\ (k <> "token_id" -> k <> "complementary_token_id" ->
        k <> "condition_id" -> k <> "outcome_index" ->
        dget k (_flatten values) = dget k values).
Proof.
  intros values k Hk.
  destruct (dget "asset" values) as [[| | | | | |asset]|] eqn:E;
    try (rewrite flatten_no_dict_asset by (intros a'; rewrite E; discriminate);
         split; auto).
  rewrite (dget_flatten _ _ _ E).
  destruct (String.eqb_spec "asset" k) as [<-|_]; [contradiction|].
  split.
  - intros x ->. reflexivity.
  - intros H1 H2 H3 H4. destruct (dget k values); [reflexivity|].
    unfold asset_value.
    destruct (String.eqb_spec k "token_id"); [contradiction|].
    destruct (String.eqb_spec k "complementary_token_id"); [contradiction|].
    destruct (String.eqb_spec k "condition_id"); [contradiction|].
    destruct (String.eqb_spec k "outcome_index"); [contradiction|].
    reflexivity.
Qed.

Lemma flatten_keeps_top_level_witness :
  dget "balance" (_flatten sample_position) = Some (JStr "2500000")
  /\ dget "balance" (_flatten sample_position) = dget "balance" sample_position.
Proof.
  split.
  - apply (proj1 (flatten_keeps_top_level sample_position "balance" ltac:(discriminate))).
    reflexivity.
  - apply (proj2 (flatten_keeps_top_level sample_position "balance" ltac:(discriminate)));
      discriminate.
Defined.

(** X4: a flattened name that is missing at the top level is filled from
    the nested [asset]: [token_id] from [asset.id],
    [complementary_token_id] from [asset.complement], [condition_id] from
    [asset.condition.id] and [outcome_index] from [asset.outcomeIndex];
    when the nested value is missing too, the name stays absent. *)
Theorem flatten_fills_from_asset :
  forall (values asset : pydict),
    dget "asset" values = Some (JDict asset) ->
    (dget "token_id" values = None ->
     dget "token_id" (_flatten values) = dget "id" asset)
    /\ (dget "complementary_token_id" values = None ->
        dget "complementary_token_id" (_flatten values) = dget "complement" asset)
    /\ (dget "condition_id" values = None ->
        dget "condition_id" (_flatten values)
        = match dget "condition" asset with
          | Some (JDict condition) => dget "id" condition
          | _ => None
          end)
    /\ (dget "outcome_index" values = None ->
        dget "outcome_index" (_flatten values) = dget "outcomeIndex" asset).
Proof.
  intros values asset E.
  repeat split; intros H; rewrite (dget_flatten _ _ _ E), H; reflexivity.
Qed.

Lemma flatten_fills_from_asset_witness :
  dget "token_id" (_flatten sample_position) = Some (JStr "123")
  /\ dget "complementary_token_id" (_flatten sample_position) = Some (JStr "456")
  /\ dget "condition_id" (_flatten sample_position) = Some (JStr ("0x" ++ hash64))
  /\ dget "outcome_index" (_flatten sample_position) = Some (JInt 1).
Proof.
  destruct (flatten_fills_from_asset sample_position sample_asset eq_refl)
    as (H1 & H2 & H3 & H4).
  split; [apply H1; reflexivity|].
  split; [apply H2; reflexivity|].
  split; [apply H3; reflexivity | apply H4; reflexivity].
Defined.

(** X5: [_flatten] keeps the record a dictionary: if no key occurs twice
    before, none does after. *)
Theorem flatten_keys_unique :
  forall values : pydict, NoDup (keys values) -> NoDup (keys (_flatten values)).
Proof.
  intros values Hd.
  destruct (dget "asset" values) as [[| | | | | |asset]|] eqn:E;
    try (rewrite flatten_no_dict_asset by (intros a'; rewrite E; discriminate);
         exact Hd).
  rewrite (flatten_steps _ _ E).
  apply keys_dpop_NoDup. now repeat apply keys_opt_setdefault_NoDup.
Qed.

Lemma flatten_keys_unique_witness : NoDup (keys (_flatten sample_position)).
Proof.
  apply flatten_keys_unique. cbn.
  repeat constructor; cbn; intuition discriminate.
Defined.

(* ================================================================== *)
(** ** More about the validators of types/common.py                     *)
(* ================================================================== *)

Lemma all_chars_app (p : ascii -> bool) (a b : string) :
  all_chars p (a ++ b) = all_chars p a && all_chars p b.
Proof.
  induction a as [|c a IH]; [reflexivity|].
  cbn [append all_chars]. now rewrite IH, andb_assoc.
Qed.

Lemma append_inv_head (a b c : string) : a ++ b = a ++ c -> b = c.
Proof. induction a as [|x a IH]; cbn [append]; intros H; [exact H|]. injection H. auto. Qed.

Lemma add_0x_cases (s : string) :
  (startswith "0x" s = true /\ add_0x s = s)
  \/ (startswith "0x" s = false /\ add_0x s = "0x" ++ s).
Proof. unfold add_0x. destruct (startswith "0x" s); cbn [negb]; auto. Qed.

(** A body of at least two hex digits cannot begin with a second
    prefix. *)
Lemma hex_shape_body_not_prefixed (n : nat) (c : ascii) (s : string) :
  2 <= n -> is_hex c = false ->
  ~ hex_shape n ("0x" ++ String "0" (String c s)).
Proof.
  intros Hn Hc (body & tail & Heq & Hl & Hh & _).
  apply append_inv_head in Heq.
  destruct body as [|a [|b body]]; cbn [String.length] in Hl; try lia.
  cbn [append] in Heq. injection Heq as <- <- _.
  cbn [all_chars] in Hh. rewrite Hc in Hh. cbn [andb] in Hh.
  now rewrite andb_false_r in Hh.
Qed.

Lemma hex_shape_startswith (n : nat) (r : string) :
  hex_shape n r -> startswith "0x" r = true.
Proof. intros (body & tail & -> & _). reflexivity. Qed.

(** Acceptance in terms of the result alone. *)
Lemma accepts_by_result (n : nat) (s r : string) :
  2 <= n ->
  (r = add_0x s /\ hex_shape n (add_0x s))
  <-> ((r = s \/ r = "0x" ++ s) /\ hex_shape n r).
Proof.
  intros Hn. split.
  - intros [-> Hs]. split; [|exact Hs].
    destruct (add_0x_cases s) as [[_ ->]|[_ ->]]; auto.
  - intros [[->| ->] Hs].
    + pose proof (hex_shape_startswith _ _ Hs) as Hp.
      destruct (add_0x_cases s) as [[_ E]|[E _]]; [|congruence].
      rewrite E. auto.
    + destruct (add_0x_cases s) as [[Hp _]|[_ E]].
      * destruct (startswith_0x _ Hp) as [t ->].
        exfalso. now apply (hex_shape_body_not_prefixed n "x" t Hn x_not_hex).
      * rewrite E. auto.
Qed.

Lemma hex_shape_length (n : nat) (r : string) :
  hex_shape n r -> String.length r = 2 + n \/ String.length r = 3 + n.
Proof.
  intros (body & tail & -> & Hl & _ & [-> | ->]);
    cbn [append String.length]; rewrite length_append, Hl; cbn; lia.
Qed.

(** X6: on text, [validate_keccak256] returns [r] exactly when [r] is
    the text itself or the text with [0x] put in front, and [r] is [0x],
    64 hex digits and at most one final line feed; otherwise it raises
    [ValueError] (never [TypeError]).  The text is never altered beyond
    the prefix. *)
Theorem validate_keccak256_text_exact :
  forall s : string,
    (forall r : string,
        validate_keccak256 (PyStr s) = Return r
        <-> (r = s \/ r = "0x" ++ s) /\ hex_shape 64 r)
    /\ ((exists r, validate_keccak256 (PyStr s) = Return r)
        \/ exists msg, validate_keccak256 (PyStr s) = Raise (ValueError msg)).
Proof.
  intros s. split.
  - intros r. rewrite validate_keccak256_accepts. apply accepts_by_result. lia.
  - rewrite validate_keccak256_str.
    destruct (re_match KECCAK256_REGEX (add_0x s)); eauto.
Qed.

(** X7: on text, [validate_eth_address] returns [r] exactly when [r] is
    the text itself or the text with [0x] put in front, and [r] is [0x],
    40 hex digits in any casing and at most one final line feed;
    otherwise it raises [ValueError]. *)
Theorem validate_eth_address_text_exact :
  forall s : string,
    (forall r : string,
        validate_eth_address (PyStr s) = Return r
        <-> (r = s \/ r = "0x" ++ s) /\ hex_shape 40 r)
    /\ ((exists r, validate_eth_address (PyStr s) = Return r)
        \/ exists msg, validate_eth_address (PyStr s) = Raise (ValueError msg)).
Proof.
  intros s. split.
  - intros r. rewrite validate_eth_address_accepts. apply accepts_by_result. lia.
  - rewrite validate_eth_address_str.
    destruct (re_match CHECKSUM_ADDRESS_REGEX (add_0x s)); eauto.
Qed.

(** X8: on text, [validate_keccak_or_padded] returns [r] exactly when
    [r] is the text itself or the text with [0x] put in front, and [r] is
    [0x] followed by exactly 64 hex digits and nothing else; every value
    it returns is 66 characters long; otherwise it raises
    [ValueError]. *)
Theorem validate_keccak_or_padded_text_exact :
  forall s : string,
    (forall r : string,
        validate_keccak_or_padded (PyStr s) = Return r
        <-> (r = s \/ r = "0x" ++ s)
            /\ exists body, r = "0x" ++ body /\ String.length body = 64
                            /\ all_chars is_hex body = true)
    /\ (forall r : string,
        validate_keccak_or_padded (PyStr s) = Return r -> String.length r = 66)
    /\ ((exists r, validate_keccak_or_padded (PyStr s) = Return r)
        \/ exists msg, validate_keccak_or_padded (PyStr s) = Raise (ValueError msg)).
Proof.
  intros s.
  assert (forall r, validate_keccak_or_padded (PyStr s) = Return r
                    <-> (r = s \/ r = "0x" ++ s)
                        /\ exists body, r = "0x" ++ body /\ String.length body = 64
                                        /\ all_chars is_hex body = true) as Hiff.
  { intros r. rewrite validate_keccak_or_padded_accepts. split.
    - intros [-> Hb]. split; [|exact Hb].
      destruct (add_0x_cases s) as [[_ ->]|[_ ->]]; auto.
    - intros [Hr (body & Hb & Hl & Hh)].
      assert (hex_shape 64 r) as Hs.
      { exists body, EmptyString. rewrite append_empty_r. auto. }
      destruct (proj2 (accepts_by_result 64 s r ltac:(lia)) (conj Hr Hs)) as [-> _].
      split; [reflexivity | now exists body]. }
  split; [exact Hiff | split].
  - intros r Hr. apply Hiff in Hr as [_ (body & -> & Hl & _)].
    cbn [append String.length]. now rewrite Hl.
  - rewrite validate_keccak_or_padded_str.
    destruct (Nat.eqb (String.length (add_0x s)) 66
              && all_chars is_hex (slice_from 2 (add_0x s))); eauto.
Qed.

Lemma text_exact_witness_shape : hex_shape 64 ("0x" ++ hash64).
Proof.
  exists hash64, EmptyString. repeat split. now left.
Qed.

Lemma validate_keccak256_text_exact_witness :
  validate_keccak256 (PyStr hash64) = Return ("0x" ++ hash64).
Proof.
  apply (proj1 (validate_keccak256_text_exact hash64)). split.
  - now right.
  - exact text_exact_witness_shape.
Defined.

Lemma validate_eth_address_text_exact_witness :
  validate_eth_address (PyStr ("0x" ++ addr_mixed)) = Return ("0x" ++ addr_mixed).
Proof.
  apply (proj1 (validate_eth_address_text_exact ("0x" ++ addr_mixed))). split.
  - now left.
  - exists addr_mixed, EmptyString. repeat split. now left.
Defined.

Lemma validate_keccak_or_padded_text_exact_witness :
  validate_keccak_or_padded (PyStr hash64) = Return ("0x" ++ hash64)
  /\ String.length ("0x" ++ hash64) = 66.
Proof.
  assert (validate_keccak_or_padded (PyStr hash64) = Return ("0x" ++ hash64)) as H.
  { apply (proj1 (validate_keccak_or_padded_text_exact hash64)). split.
    - now right.
    - exists hash64. repeat split. }
  split; [exact H|].
  exact (proj1 (proj2 (validate_keccak_or_padded_text_exact hash64)) _ H).
Defined.

(* ------------------------------------------------------------------ *)
(** *** Bytes                                                           *)

Lemma bytes_hex_not_prefixed (b : list byte) :
  startswith "0x" (bytes_hex b) = false /\ startswith "0X" (bytes_hex b) = false.
Proof.
  destruct b as [|x b]; [split; reflexivity|].
  cbn [bytes_hex startswith].
  pose proof (is_hex_digit (Byte.to_N x mod 16)) as Hh.
  split.
  - destruct (Ascii.eqb_spec "x" (hex_digit (Byte.to_N x mod 16))) as [E|_];
      [rewrite <- E in Hh; discriminate | now rewrite andb_false_r].
  - destruct (Ascii.eqb_spec "X" (hex_digit (Byte.to_N x mod 16))) as [E|_];
      [rewrite <- E in Hh; discriminate | now rewrite andb_false_r].
Qed.

Lemma add_0x_bytes_hex (b : list byte) : add_0x (bytes_hex b) = "0x" ++ bytes_hex b.
Proof. unfold add_0x. now rewrite (proj1 (bytes_hex_not_prefixed b)). Qed.

(** Hex text of bytes has the accepted shape exactly when the byte count
    is right: it never ends in a line feed. *)
Lemma hex_shape_bytes_hex (n : nat) (b : list byte) :
  hex_shape n ("0x" ++ bytes_hex b) <-> 2 * List.length b = n.
Proof.
  split.
  - intros (body & tail & Heq & Hl & Hh & Ht). apply append_inv_head in Heq.
    pose proof (bytes_hex_all_hex b) as Hall. rewrite Heq, all_chars_app in Hall.
    apply andb_true_iff in Hall as [_ Htail].
    destruct Ht as [-> | ->]; [|discriminate Htail].
    rewrite append_empty_r in Heq. rewrite <- Hl, <- Heq. symmetry.
    apply bytes_hex_length.
  - intros Hn. exists (bytes_hex b), EmptyString. rewrite append_empty_r.
    repeat split; [now rewrite bytes_hex_length | apply bytes_hex_all_hex | now left].
Qed.

(** X9: raw bytes ([bytes] or [HexBytes]) are accepted exactly by their
    length: 32 bytes for the two hash validators, 20 bytes for the address
    validator; the result is [0x] followed by their lowercase hex text. *)
Theorem validators_on_bytes :
  forall (b : list byte) (r : string),
    (validate_keccak256 (PyBytes b) = Return r
     <-> List.length b = 32 /\ r = "0x" ++ bytes_hex b)
    /\ (validate_eth_address (PyBytes b) = Return r
        <-> List.length b = 20 /\ r = "0x" ++ bytes_hex b)
    /\ (validate_keccak_or_padded (PyBytes b) = Return r
        <-> List.length b = 32 /\ r = "0x" ++ bytes_hex b)
    /\ validate_keccak256 (PyHexBytes b) = validate_keccak256 (PyBytes b)
    /\ validate_eth_address (PyHexBytes b) = validate_eth_address (PyBytes b)
    /\ validate_keccak_or_padded (PyHexBytes b) = validate_keccak_or_padded (PyBytes b).
Proof.
  intros b r.
  change (validate_keccak256 (PyBytes b)) with (validate_keccak256 (PyStr (bytes_hex b))).
  change (validate_eth_address (PyBytes b))
    with (validate_eth_address (PyStr (bytes_hex b))).
  change (validate_keccak_or_padded (PyBytes b))
    with (validate_keccak_or_padded (PyStr (bytes_hex b))).
  rewrite validate_keccak256_accepts, validate_eth_address_accepts,
    validate_keccak_or_padded_accepts, add_0x_bytes_hex, !hex_shape_bytes_hex.
  split; [|split; [|split; [|repeat split]]].
  - split; intros [H1 H2]; split; auto; lia.
  - split; intros [H1 H2]; split; auto; lia.
  - split.
    + intros [-> (body & Hb & Hl & _)]. apply append_inv_head in Hb.
      rewrite <- Hb, bytes_hex_length in Hl. split; [lia | reflexivity].
    + intros [Hl ->]. split; [reflexivity|]. exists (bytes_hex b).
      repeat split; [rewrite bytes_hex_length; lia | apply bytes_hex_all_hex].
Qed.

Lemma validators_on_bytes_witness :
  validate_keccak256 (PyBytes (repeat xab 32)) = Return ("0x" ++ bytes_hex (repeat xab 32))
  /\ validate_eth_address (PyBytes (repeat xab 20))
     = Return ("0x" ++ bytes_hex (repeat xab 20)).
Proof.
  split.
  - apply (proj1 (validators_on_bytes (repeat xab 32) _)). split; reflexivity.
  - apply (proj1 (proj2 (validators_on_bytes (repeat xab 20) _))). split; reflexivity.
Defined.

(* ------------------------------------------------------------------ *)
(** *** The strict and the relaxed hash validator                       *)

(** X10: whatever [validate_keccak_or_padded] accepts,
    [validate_keccak256] accepts too, with the same result; and whatever
    [validate_keccak256] accepts, [validate_keccak_or_padded] accepts
    with the same result unless the value ends in a line feed after its
    64 hex digits. *)
Theorem keccak_validators_relation :
  forall (v : pyobj) (r : string),
    (validate_keccak_or_padded v = Return r -> validate_keccak256 v = Return r)
    /\ (validate_keccak256 v = Return r ->
        validate_keccak_or_padded v = Return r
        \/ exists body, r = "0x" ++ body ++ NL /\ String.length body = 64
                        /\ all_chars is_hex body = true).
Proof.
  intros v r. split.
  - apply keccak_or_padded_implies_keccak256.
  - apply keccak256_implies_keccak_or_padded.
Qed.

Lemma keccak_validators_relation_witness :
  validate_keccak256 (PyStr hash64) = Return ("0x" ++ hash64)
  /\ (validate_keccak_or_padded (PyStr ("0x" ++ hash64)) = Return ("0x" ++ hash64)
      \/ exists body, "0x" ++ hash64 = "0x" ++ body ++ NL /\ String.length body = 64
                      /\ all_chars is_hex body = true).
Proof.
  split.
  - apply (proj1 (keccak_validators_relation (PyStr hash64) ("0x" ++ hash64))).
    reflexivity.
  - apply (proj2 (keccak_validators_relation (PyStr ("0x" ++ hash64))
                    ("0x" ++ hash64))).
    reflexivity.
Defined.

(* ------------------------------------------------------------------ *)
(** *** [hexbytes_to_str] and idempotence                               *)

Lemma hexbytes_to_str_str (s : string) : hexbytes_to_str (PyStr s) = PyStr (add_0x s).
Proof. unfold hexbytes_to_str, add_0x. now destruct (startswith "0x" s). Qed.

Lemma hexbytes_to_str_bytes (b : list byte) :
  hexbytes_to_str (PyBytes b) = PyStr ("0x" ++ bytes_hex b)
  /\ hexbytes_to_str (PyHexBytes b) = PyStr ("0x" ++ bytes_hex b).
Proof.
  split; [reflexivity|]. unfold hexbytes_to_str, HexBytes_hex.
  now rewrite (proj1 (bytes_hex_not_prefixed b)).
Qed.

(** X11: [validate_keccak_or_padded] and [hexbytes_to_str] are
    idempotent: validating an accepted value again returns it unchanged,
    and normalising twice is normalising once, for every input. *)
Theorem keccak_or_padded_and_hexbytes_idempotent :
  (forall (v : pyobj) (r : string),
      validate_keccak_or_padded v = Return r ->
      validate_keccak_or_padded (PyStr r) = Return r)
  /\ (forall v : pyobj, hexbytes_to_str (hexbytes_to_str v) = hexbytes_to_str v).
Proof.
  split.
  - intros v r H. destruct (validate_keccak_or_padded_text _ _ H) as (s & _ & H').
    apply validate_keccak_or_padded_accepts in H' as [-> Hs].
    apply validate_keccak_or_padded_accepts. now rewrite add_0x_idem.
  - intros [s|b|b|z|f|]; try reflexivity.
    + now rewrite !hexbytes_to_str_str, add_0x_idem.
    + rewrite (proj2 (hexbytes_to_str_bytes b)), hexbytes_to_str_str. reflexivity.
Qed.

Lemma keccak_or_padded_and_hexbytes_idempotent_witness :
  validate_keccak_or_padded (PyStr ("0x" ++ hash64)) = Return ("0x" ++ hash64).
Proof.
  apply (proj1 keccak_or_padded_and_hexbytes_idempotent (PyStr hash64)).
  reflexivity.
Defined.

(** X12: the validators absorb [hexbytes_to_str]: normalising a value
    first changes neither what a validator returns nor the error it
    raises, for every input. *)
Theorem validators_absorb_hexbytes_to_str :
  forall v : pyobj,
    validate_keccak256 (hexbytes_to_str v) = validate_keccak256 v
    /\ validate_eth_address (hexbytes_to_str v) = validate_eth_address v
    /\ validate_keccak_or_padded (hexbytes_to_str v) = validate_keccak_or_padded v.
Proof.
  assert (forall s, validate_keccak256 (PyStr (add_0x s)) = validate_keccak256 (PyStr s)
                    /\ validate_eth_address (PyStr (add_0x s))
                       = validate_eth_address (PyStr s)
                    /\ validate_keccak_or_padded (PyStr (add_0x s))
                       = validate_keccak_or_padded (PyStr s)) as Hs.
  { intros s.
    rewrite !validate_keccak256_str, !validate_eth_address_str,
      !validate_keccak_or_padded_str, !add_0x_idem. auto. }
  intros [s|b|b|z|f|]; try (repeat split; reflexivity).
  - rewrite hexbytes_to_str_str. apply Hs.
  - rewrite (proj1 (hexbytes_to_str_bytes b)), <- add_0x_bytes_hex. apply Hs.
  - rewrite (proj2 (hexbytes_to_str_bytes b)), <- add_0x_bytes_hex. apply Hs.
Qed.

(* ------------------------------------------------------------------ *)
(** *** The upper-case prefix                                           *)

Lemma X_not_hex : is_hex "X" = false.
Proof. reflexivity. Qed.

(** X13: a value written with the upper-case prefix [0X] is never
    accepted, whatever follows: all three validators raise [ValueError],
    the address validator too although its pattern ignores case. *)
Theorem upper_case_prefix_rejected :
  forall t : string,
    (exists msg, validate_keccak256 (PyStr ("0X" ++ t)) = Raise (ValueError msg))
    /\ (exists msg, validate_eth_address (PyStr ("0X" ++ t)) = Raise (ValueError msg))
    /\ (exists msg, validate_keccak_or_padded (PyStr ("0X" ++ t))
                    = Raise (ValueError msg)).
Proof.
  intros t.
  assert (add_0x ("0X" ++ t) = "0x" ++ String "0" (String "X" t)) as Ea by reflexivity.
  split; [|split].
  - destruct (validate_keccak256 (PyStr ("0X" ++ t))) as [e|r] eqn:E.
    + rewrite validate_keccak256_str in E.
      destruct (re_match KECCAK256_REGEX (add_0x ("0X" ++ t))); [discriminate|].
      injection E as <-. eauto.
    + apply validate_keccak256_accepts in E as [_ Hs]. rewrite Ea in Hs.
      exfalso. now apply (hex_shape_body_not_prefixed 64 "X" t ltac:(lia) X_not_hex).
  - destruct (validate_eth_address (PyStr ("0X" ++ t))) as [e|r] eqn:E.
    + rewrite validate_eth_address_str in E.
      destruct (re_match CHECKSUM_ADDRESS_REGEX (add_0x ("0X" ++ t))); [discriminate|].
      injection E as <-. eauto.
    + apply validate_eth_address_accepts in E as [_ Hs]. rewrite Ea in Hs.
      exfalso. now apply (hex_shape_body_not_prefixed 40 "X" t ltac:(lia) X_not_hex).
  - destruct (validate_keccak_or_padded (PyStr ("0X" ++ t))) as [e|r] eqn:E.
    + rewrite validate_keccak_or_padded_str in E.
      destruct (Nat.eqb (String.length (add_0x ("0X" ++ t))) 66
                && all_chars is_hex (slice_from 2 (add_0x ("0X" ++ t))));
        [discriminate|].
      injection E as <-. eauto.
    + apply validate_keccak_or_padded_accepts in E as [_ (body & Hb & Hl & Hh)].
      exfalso.
      apply (hex_shape_body_not_prefixed 64 "X" t ltac:(lia) X_not_hex).
      rewrite <- Ea. exists body, EmptyString. rewrite append_empty_r. auto.
Qed.

(* ================================================================== *)
(** ** More about the signing module                                    *)
(* ================================================================== *)

Local Open Scope Z_scope.

Lemma strip_0x_bytes_hex (b : list byte) : strip_0x (bytes_hex b) = bytes_hex b.
Proof.
  unfold strip_0x. destruct (bytes_hex_not_prefixed b) as [-> ->]. reflexivity.
Qed.

(** [HexBytes(b.hex()) == b] *)
Lemma HexBytes_new_hex (b : list byte) : HexBytes_new (PyStr (bytes_hex b)) = Return b.
Proof.
  unfold HexBytes_new, hexstr_to_bytes.
  rewrite strip_0x_bytes_hex, odd_length_bytes_hex. now rewrite unhexlify_bytes_hex.
Qed.

Lemma prepend_zx_bytes_hex (b : list byte) :
  prepend_zx (bytes_hex b) = bytes_hex b \/ prepend_zx (bytes_hex b) = "0x" ++ bytes_hex b.
Proof.
  unfold prepend_zx.
  destruct (Nat.ltb 2 (String.length (bytes_hex b))
            && negb (String.eqb (substring 0 2 (bytes_hex b)) "0x")); auto.
Qed.

(** The hex text of a byte string, prefixed the way the module prefixes
    it, reads back as that byte string. *)
Lemma HexBytes_new_prepend_zx (b : list byte) :
  HexBytes_new (PyStr (prepend_zx (bytes_hex b))) = Return b.
Proof.
  destruct (prepend_zx_bytes_hex b) as [-> | ->];
    [apply HexBytes_new_hex | apply HexBytes_new_0x_hex].
Qed.

Lemma int_from_bytes_to_bytes (n : nat) :
  forall z : Z, 0 <= z < 256 ^ Z.of_nat n -> int_from_bytes (int_to_bytes n z) = z.
Proof.
  induction n as [|n IH]; intros z Hz.
  - cbn in *. lia.
  - cbn [int_to_bytes]. rewrite int_from_bytes_cons, int_to_bytes_length.
    rewrite Nat2Z.inj_succ, Z.pow_succ_r in Hz by lia.
    assert (0 < 256 ^ Z.of_nat n) as Hp by (apply Z.pow_pos_nonneg; lia).
    assert (0 <= z / 256 ^ Z.of_nat n < 256) as Hq.
    { split; [apply Z.div_pos; lia | apply Z.div_lt_upper_bound; lia]. }
    rewrite Z.mod_small by exact Hq. rewrite Z_of_byte_of_Z by exact Hq.
    pose proof (Z.div_mod z (256 ^ Z.of_nat n) ltac:(lia)) as Hdm.
    pose proof (Z.mod_pos_bound z (256 ^ Z.of_nat n) Hp) as Hm.
    replace (int_to_bytes n z)
      with (int_to_bytes n (z mod 256 ^ Z.of_nat n
                            + (z / 256 ^ Z.of_nat n) * 256 ^ Z.of_nat n))
      by (f_equal; lia).
    rewrite int_to_bytes_low by lia. rewrite IH by exact Hm. lia.
Qed.

Section MoreSigningFacts.
Context {C : Crypto}.

Local Arguments int_to_bytes : simpl never.
Local Arguments utf8 : simpl never.
Local Arguments Z.pow : simpl never.

Lemma encode_uint_inj (bits : nat) (z1 z2 : Z) (e : list byte) :
  (bits <= 256)%nat ->
  encode_uint bits z1 = Return e -> encode_uint bits z2 = Return e -> z1 = z2.
Proof.
  intros Hb H1 H2.
  apply encode_uint_inv in H1 as [Hz1 E1]. apply encode_uint_inv in H2 as [Hz2 E2].
  assert (2 ^ Z.of_nat bits <= 256 ^ Z.of_nat 32) as Hle.
  { change (256 ^ Z.of_nat 32) with (2 ^ 256). apply Z.pow_le_mono_r; lia. }
  rewrite <- (int_from_bytes_to_bytes 32 z1), <- (int_from_bytes_to_bytes 32 z2)
    by lia.
  congruence.
Qed.

Lemma encode_value_domain (chainId : Z) :
  encode_value (get_clob_auth_domain chainId)
  = (e <- encode_uint 256 chainId ;;
     Return (keccak (utf8 "ClobAuthDomain") ++ keccak (utf8 "1") ++ e)%list).
Proof.
  unfold encode_value, get_clob_auth_domain, make_domain, new_struct.
  cbn [members values map fst snd encode_members dict_get].
  change (String.eqb "name" "name") with true.
  change (String.eqb "name" "version") with false.
  change (String.eqb "version" "version") with true.
  change (String.eqb "name" "chainId") with false.
  change (String.eqb "version" "chainId") with false.
  change (String.eqb "chainId" "chainId") with true.
  cbn [encode_member bind].
  destruct (encode_uint 256 chainId) as [err|e]; cbn [bind]; [reflexivity|].
  rewrite app_nil_r. reflexivity.
Qed.

Lemma encode_value_ClobAuth (a timestampString : string) (nonce : Z) :
  encode_value (ClobAuth [("address", PyStr a);
                          ("timestamp", PyStr timestampString);
                          ("nonce", PyInt nonce);
                          ("message", PyStr MSG_TO_SIGN)])
  = (ea <- encode_member Address (PyStr a) ;;
     en <- encode_uint 256 nonce ;;
     Return (ea ++ keccak (utf8 timestampString) ++ en
             ++ keccak (utf8 MSG_TO_SIGN))%list).
Proof.
  unfold encode_value, ClobAuth, ClobAuth_members, new_struct.
  cbn [members values map fst snd encode_members dict_get].
  change (String.eqb "address" "address") with true.
  change (String.eqb "address" "timestamp") with false.
  change (String.eqb "timestamp" "timestamp") with true.
  change (String.eqb "address" "nonce") with false.
  change (String.eqb "timestamp" "nonce") with false.
  change (String.eqb "nonce" "nonce") with true.
  change (String.eqb "address" "message") with false.
  change (String.eqb "timestamp" "message") with false.
  change (String.eqb "nonce" "message") with false.
  change (String.eqb "message" "message") with true.
  cbv iota.
  destruct (encode_member Address (PyStr a)) as [err|ea]; cbn [bind]; [reflexivity|].
  cbn [encode_member bind].
  destruct (encode_uint 256 nonce) as [err|en]; cbn [bind]; [reflexivity|].
  rewrite app_nil_r. reflexivity.
Qed.

(** X14: the chain id and the nonce go into the hashed bytes without
    loss: two domains whose encoded values are equal have the same chain
    id, and two auth messages for the same address and timestamp whose
    encoded values are equal have the same nonce. *)
Theorem chain_id_and_nonce_encoded_injectively :
  (forall (c1 c2 : Z) (e : list byte),
      encode_value (get_clob_auth_domain c1) = Return e ->
      encode_value (get_clob_auth_domain c2) = Return e ->
      c1 = c2)
  /\ (forall (a timestampString : string) (n1 n2 : Z) (e : list byte),
      encode_value (ClobAuth [("address", PyStr a);
                              ("timestamp", PyStr timestampString);
                              ("nonce", PyInt n1);
                              ("message", PyStr MSG_TO_SIGN)]) = Return e ->
      encode_value (ClobAuth [("address", PyStr a);
                              ("timestamp", PyStr timestampString);
                              ("nonce", PyInt n2);
                              ("message", PyStr MSG_TO_SIGN)]) = Return e ->
      n1 = n2).
Proof.
  split.
  - intros c1 c2 e. rewrite !encode_value_domain.
    destruct (encode_uint 256 c1) as [|e1] eqn:E1; [discriminate|].
    destruct (encode_uint 256 c2) as [|e2] eqn:E2; [discriminate|].
    cbn [bind]. intros H1 H2. rewrite <- H2 in H1. injection H1 as H1.
    apply app_inv_head in H1. apply app_inv_head in H1. subst e2.
    now apply (encode_uint_inj 256 c1 c2 e1).
  - intros a tss n1 n2 e. rewrite !encode_value_ClobAuth.
    destruct (encode_member Address (PyStr a)) as [|ea]; [discriminate|].
    cbn [bind].
    destruct (encode_uint 256 n1) as [|e1] eqn:E1; [discriminate|].
    destruct (encode_uint 256 n2) as [|e2] eqn:E2; [discriminate|].
    cbn [bind]. intros H1 H2. rewrite <- H2 in H1. injection H1 as H1.
    apply app_inv_head in H1. apply app_inv_head in H1.
    apply app_inv_tail in H1. subst e2.
    now apply (encode_uint_inj 256 n1 n2 e1).
Qed.

(** X15: [Signer.sign] signs a 32-byte digest and nothing else.  A
    32-byte digest given as bytes, as hex text, as prefixed hex text, or
    as the text [prepend_zx] makes of its hex, gives one and the same
    result, the hex text of the signature without a prefix; a digest of
    any other length is refused with [ValueError] in every one of these
    forms. *)
Theorem Signer_sign_digest_forms :
  forall (signer : Signer) (d : list byte),
    Signer_sign signer (PyStr (bytes_hex d)) = Signer_sign signer (PyBytes d)
    /\ Signer_sign signer (PyStr ("0x" ++ bytes_hex d)) = Signer_sign signer (PyBytes d)
    /\ Signer_sign signer (PyStr (prepend_zx (bytes_hex d)))
       = Signer_sign signer (PyBytes d)
    /\ (List.length d = 32%nat ->
        Signer_sign signer (PyBytes d)
        = Return (bytes_hex (ecdsa_sign d (private_key signer))))
    /\ (List.length d <> 32%nat ->
        Signer_sign signer (PyBytes d)
        = Raise (ValueError "The message hash must be exactly 32-bytes")).
Proof.
  intros signer d. unfold Signer_sign, Account_unsafe_sign_hash.
  rewrite HexBytes_new_hex, HexBytes_new_0x_hex, HexBytes_new_prepend_zx.
  cbn [HexBytes_new bind].
  split; [reflexivity | split; [reflexivity | split; [reflexivity | split]]].
  - intros ->. reflexivity.
  - intros Hd. apply Nat.eqb_neq in Hd. rewrite Hd. reflexivity.
Qed.

Context {HC : CryptoLaws C}.

(** X16: the address of a constructed signer is a valid address for the
    validators: [validate_eth_address] returns it unchanged, and it is
    42 characters long. *)
Theorem Signer_address_validates :
  forall (k : string) (c : Z) (signer : Signer),
    Signer_init (Some k) (Some c) = Return signer ->
    validate_eth_address (PyStr (Signer_address signer))
    = Return (Signer_address signer)
    /\ String.length (Signer_address signer) = 42%nat.
Proof.
  intros k c signer Hs. apply Signer_init_inv in Hs as (_ & _ & Hk).
  destruct (from_key_address _ _ Hk) as (body & Hb & Hl & Hh).
  unfold Signer_address. rewrite Hb. split.
  - apply validate_eth_address_accepts.
    change (add_0x ("0x" ++ body)) with ("0x" ++ body).
    split; [reflexivity|]. exists body, EmptyString. rewrite append_empty_r. auto.
  - cbn [append String.length]. now rewrite Hl.
Qed.

(** X17: the digest text that [sign_clob_auth_message] hands to the
    signer is always a valid hash for the validators: it is 66 characters
    long, and [validate_keccak256] and [validate_keccak_or_padded] both
    return it unchanged. *)
Theorem auth_struct_hash_validates :
  forall (signer : Signer) (timestamp nonce : Z) (h : string),
    auth_struct_hash signer timestamp nonce = Return h ->
    String.length h = 66%nat
    /\ validate_keccak256 (PyStr h) = Return h
    /\ validate_keccak_or_padded (PyStr h) = Return h.
Proof.
  intros signer timestamp nonce h. unfold auth_struct_hash.
  destruct (str_int timestamp) as [|tss]; [discriminate|]. cbn [bind].
  destruct (signable_bytes _ _) as [|sb]; [discriminate|]. cbn [bind].
  intros H. injection H as <-. rewrite prepend_zx_digest.
  assert (String.length (bytes_hex (keccak sb)) = 64%nat) as Hl
      by (now rewrite bytes_hex_length, keccak_length).
  pose proof (bytes_hex_all_hex (keccak sb)) as Hh.
  split; [cbn [append String.length]; now rewrite Hl | split].
  - apply validate_keccak256_accepts.
    change (add_0x ("0x" ++ bytes_hex (keccak sb))) with ("0x" ++ bytes_hex (keccak sb)).
    split; [reflexivity|]. exists (bytes_hex (keccak sb)), EmptyString.
    rewrite append_empty_r. auto.
  - apply validate_keccak_or_padded_accepts.
    change (add_0x ("0x" ++ bytes_hex (keccak sb))) with ("0x" ++ bytes_hex (keccak sb)).
    split; [reflexivity|]. now exists (bytes_hex (keccak sb)).
Qed.

End MoreSigningFacts.

Section MoreSigningWitnesses.
Local Existing Instance zero_crypto.

Lemma chain_id_and_nonce_encoded_injectively_witness :
  encode_value (get_clob_auth_domain 137)
  = Return (repeat x00 64 ++ int_to_bytes 32 137)%list
  /\ 137 = 137
  /\ 1 = 1.
Proof.
  split; [reflexivity | split].
  - apply (proj1 (@chain_id_and_nonce_encoded_injectively zero_crypto) 137 137
             (repeat x00 64 ++ int_to_bytes 32 137)%list); reflexivity.
  - apply (proj2 (@chain_id_and_nonce_encoded_injectively zero_crypto)
             "0x0000000000000000000000000000000000000000" "1700000000" 1 1
             (repeat x00 64 ++ int_to_bytes 32 1 ++ repeat x00 32)%list);
      reflexivity.
Defined.

Lemma Signer_sign_digest_forms_witness :
  Signer_sign zero_signer (PyBytes (repeat x11 32))
  = Return (bytes_hex (ecdsa_sign (repeat x11 32) "0x01"))
  /\ Signer_sign zero_signer (PyBytes (repeat x11 31))
     = Raise (ValueError "The message hash must be exactly 32-bytes").
Proof.
  split.
  - apply (proj1 (proj2 (proj2 (proj2
             (@Signer_sign_digest_forms zero_crypto zero_signer (repeat x11 32)))))).
    reflexivity.
  - apply (proj2 (proj2 (proj2 (proj2
             (@Signer_sign_digest_forms zero_crypto zero_signer (repeat x11 31)))))).
    discriminate.
Defined.

Lemma Signer_address_validates_witness :
  validate_eth_address (PyStr (Signer_address zero_signer))
  = Return (Signer_address zero_signer)
  /\ String.length (Signer_address zero_signer) = 42%nat.
Proof.
  apply (@Signer_address_validates zero_crypto zero_crypto_laws "0x01" 137).
  exact zero_signer_init.
Defined.

Lemma auth_struct_hash_validates_witness :
  String.length ("0x" ++ bytes_hex (repeat x00 32)) = 66%nat
  /\ validate_keccak256 (PyStr ("0x" ++ bytes_hex (repeat x00 32)))
     = Return ("0x" ++ bytes_hex (repeat x00 32))
  /\ validate_keccak_or_padded (PyStr ("0x" ++ bytes_hex (repeat x00 32)))
     = Return ("0x" ++ bytes_hex (repeat x00 32)).
Proof.
  apply (@auth_struct_hash_validates zero_crypto zero_crypto_laws
           zero_signer 1700000000 1).
  reflexivity.
Defined.

End MoreSigningWitnesses.

Local Close Scope Z_scope.
(* ================================================================== *)
(** ** More about [GQLPosition._parse_balance]                          *)
(* ================================================================== *)

Local Open Scope Z_scope.

Lemma all_chars_impl (p q : ascii -> bool) (s : string) :
  (forall c, p c = true -> q c = true) ->
  all_chars p s = true -> all_chars q s = true.
Proof.
  intros Hpq. induction s as [|c s IH]; [reflexivity|].
  cbn [all_chars]. intros H. apply andb_true_iff in H as [Hc Hs].
  now rewrite (Hpq c Hc), IH.
Qed.

Lemma skip_int_spaces_split (s : string) :
  exists pre, s = pre ++ skip_int_spaces s /\ all_chars is_int_space pre = true.
Proof.
  induction s as [|c s (pre & Hs & Hp)].
  - now exists EmptyString.
  - cbn [skip_int_spaces]. destruct (is_int_space c) eqn:Ec.
    + exists (String c pre). cbn [append all_chars]. rewrite Ec, Hp, <- Hs. auto.
    + now exists EmptyString.
Qed.

Lemma skip_int_spaces_blank (s : string) :
  all_chars is_int_space s = true <-> skip_int_spaces s = EmptyString.
Proof.
  induction s as [|c s IH]; [tauto|].
  cbn [all_chars skip_int_spaces]. destruct (is_int_space c); cbn [andb].
  - exact IH.
  - split; discriminate.
Qed.

Lemma scan_digits_split (s : string) :
  forall (acc : Z) (n : nat) (b : bool) (v : Z) (n' : nat) (b' : bool)
         (rest : string),
    scan_digits acc n b s = Some (v, n', b', rest) ->
    exists pre, s = pre ++ rest /\ all_chars int_char pre = true.
Proof.
  induction s as [|c s IH]; intros acc n b v n' b' rest H.
  - cbn in H. injection H as <- <- <- <-. now exists EmptyString.
  - cbn [scan_digits] in H. destruct (Ascii.eqb c "_") eqn:Eu.
    + destruct b; [discriminate|].
      destruct (IH _ _ _ _ _ _ _ H) as (pre & -> & Hp).
      exists (String c pre). cbn [append all_chars]. unfold int_char at 1.
      rewrite Eu, Hp, !orb_true_r. auto.
    + destruct (digit_value c) as [d|] eqn:Ed.
      * destruct (IH _ _ _ _ _ _ _ H) as (pre & -> & Hp).
        exists (String c pre). cbn [append all_chars]. unfold int_char at 1.
        unfold digit_value in Ed. destruct (in_range "0" "9" c); [|discriminate].
        rewrite Hp, orb_true_r. auto.
      * injection H as <- <- <- <-. now exists EmptyString.
Qed.

Lemma int_digits_chars (negative : bool) (s : string) (z : Z) :
  int_digits negative s = Return z -> all_chars int_char s = true.
Proof.
  unfold int_digits. destruct (startswith "_" s); [discriminate|].
  destruct (scan_digits 0 0 false s) as [[[[v n] b] rest]|] eqn:E; [|discriminate].
  destruct b; [discriminate|].
  destruct (Nat.ltb int_max_str_digits n); [discriminate|].
  destruct (Nat.eqb n 0); [discriminate|].
  destruct (String.eqb_spec (skip_int_spaces rest) EmptyString) as [Hr|_];
    cbn [negb]; [|discriminate].
  intros _. destruct (scan_digits_split _ _ _ _ _ _ _ _ E) as (pre & -> & Hp).
  rewrite all_chars_app, Hp. cbn [andb].
  apply skip_int_spaces_blank in Hr.
  apply (all_chars_impl is_int_space); [|exact Hr].
  intros c Hc. unfold int_char. now rewrite Hc.
Qed.

Lemma int_str_chars (s : string) (z : Z) :
  int_str s = Return z -> all_chars int_char s = true.
Proof.
  unfold int_str. destruct (skip_int_spaces_split s) as (pre & Hs & Hp).
  assert (all_chars int_char pre = true) as Hpre.
  { apply (all_chars_impl is_int_space); [|exact Hp].
    intros c Hc. unfold int_char. now rewrite Hc. }
  destruct (skip_int_spaces s) as [|c t] eqn:Ek.
  - discriminate.
  - intros H. rewrite Hs, all_chars_app, Hpre. cbn [andb].
    destruct (Ascii.eqb c "+") eqn:Eplus.
    + cbn [all_chars]. unfold int_char at 1.
      rewrite Eplus, (int_digits_chars _ _ _ H), !orb_true_r. reflexivity.
    + destruct (Ascii.eqb c "-") eqn:Eminus.
      * cbn [all_chars]. unfold int_char at 1.
        rewrite Eminus, (int_digits_chars _ _ _ H), !orb_true_r. reflexivity.
      * exact (int_digits_chars _ _ _ H).
Qed.

(** X18: a text balance of code points below 256 is only accepted if it
    is made of the ten digits, the white space that [int] strips, a sign
    and underscores: text with any other such character (a decimal
    point, an exponent, a letter, one of the separators 28 to 31) never
    parses to a balance. *)
Theorem parse_balance_text_alphabet :
  forall (s : string) (f : float),
    _parse_balance (PyStr s) = Return f -> all_chars int_char s = true.
Proof.
  intros s f. unfold _parse_balance.
  destruct (int_str s) as [e|z] eqn:E; cbn [bind]; [discriminate|].
  intros _. exact (int_str_chars _ _ E).
Qed.

Lemma parse_balance_text_alphabet_witness :
  all_chars int_char " -2_500_000 " = true.
Proof.
  apply (parse_balance_text_alphabet " -2_500_000 " (-2.5)%float).
  vm_compute. reflexivity.
Defined.

(** A white-space character that [int] does not strip is neither a
    digit, nor a sign, nor an underscore. *)
Lemma unstripped_space_plain (c : ascii) :
  is_space c = true -> is_int_space c = false ->
  Ascii.eqb c "+" = false /\ Ascii.eqb c "-" = false
  /\ Ascii.eqb c "_" = false /\ digit_value c = None.
Proof.
  each_ascii c; intros H1 H2; try discriminate H1; try discriminate H2;
    repeat split.
Qed.

(** [int] refuses a text made of white space only. *)
Lemma int_str_blank (s : string) :
  all_chars is_space s = true ->
  int_str s = Raise (ValueError "invalid literal for int() with base 10").
Proof.
  induction s as [|c s IH]; [reflexivity|].
  cbn [all_chars]. intros H. apply andb_true_iff in H as [Hc Hs].
  destruct (is_int_space c) eqn:Ei.
  - specialize (IH Hs). unfold int_str in *. cbn [skip_int_spaces].
    rewrite Ei. exact IH.
  - destruct (unstripped_space_plain c Hc Ei) as (Hplus & Hminus & Hu & Hd).
    unfold int_str. cbn [skip_int_spaces]. rewrite Ei, Hplus, Hminus.
    unfold int_digits. cbn [startswith scan_digits].
    rewrite (Ascii.eqb_sym "_" c), Hu, Hd. reflexivity.
Qed.

(** X19: an empty or blank text balance is refused with [ValueError]:
    it is not read as zero. *)
Theorem parse_balance_blank_text :
  forall s : string,
    all_chars is_space s = true ->
    exists msg, _parse_balance (PyStr s) = Raise (ValueError msg).
Proof.
  intros s Hs. eexists. apply parse_balance_bad_text. now apply int_str_blank.
Qed.

Lemma parse_balance_blank_text_witness :
  exists msg, _parse_balance (PyStr EmptyString) = Raise (ValueError msg).
Proof. apply (parse_balance_blank_text EmptyString). reflexivity. Defined.

Local Close Scope Z_scope.
